(** * nestjs-auto-docs: metadata extraction and specification synthesis

    A shallow embedding of the scanners and generators of the package
    (DtoAnalyzer, ValidatorExtractor, ExampleGenerator, ConfigService, the
    path helpers, the path combination of RouteScanner and the versioned
    layout of OpenApiGenerator) together with the properties the
    specification states about them.

    Conventions.
    - A JavaScript string is a sequence of UTF-16 code units; the embedding
      uses [string], i.e. the code units below 256.
    - The ts-morph objects the scanners read ([Type], [PropertyDeclaration],
      [ClassDeclaration], [Decorator]) are records of the observations the
      code makes on them.
    - [DtoAnalyzer] keeps its [visitedTypes] in an instance field; the
      embedding passes that set in and out of every method.
    - The resolver is not structurally recursive, so it takes fuel; [None]
      only ever means that the fuel ran out. *)

From Stdlib Require Import ZArith QArith Ascii String.
From stdpp Require Import gmap strings list.

#[local] Set Warnings "-register-all,-clear-no-such-hyp".
#[local] Open Scope string_scope.
#[local] Open Scope Z_scope.

(** ** JavaScript strings *)

Module JsString.

Definition slash : ascii := "/"%char.

(** [s.startsWith(p)] *)
Definition startsWith (s p : string) : bool := String.prefix p s.

(** [s.includes(sub)] *)
Fixpoint includes (s sub : string) : bool :=
  String.prefix sub s ||
  match s with
  | EmptyString => false
  | String _ s' => includes s' sub
  end.

(** [s.endsWith(suf)] *)
Fixpoint endsWith (s suf : string) : bool :=
  String.eqb s suf ||
  match s with
  | EmptyString => false
  | String _ s' => endsWith s' suf
  end.

(** Lower-casing of one code unit below 256: A-Z, and the Latin-1 capitals
    U+00C0-U+00DE without the multiplication sign U+00D7. *)
Definition lowerChar (c : ascii) : ascii :=
  let n := N_of_ascii c in
  if ((65 <=? n) && (n <=? 90))%N then ascii_of_N (n + 32)
  else if ((192 <=? n) && (n <=? 222) && negb (n =? 215))%N then ascii_of_N (n + 32)
  else c.

(** [s.toLowerCase()] *)
Fixpoint toLowerCase (s : string) : string :=
  match s with
  | EmptyString => EmptyString
  | String c s' => String (lowerChar c) (toLowerCase s')
  end.

(** White space and line terminators among the code units below 256:
    TAB, LF, VT, FF, CR, SP and NBSP. *)
Definition isWhiteSpace (c : ascii) : bool :=
  let n := N_of_ascii c in
  ((n =? 9) || (n =? 10) || (n =? 11) || (n =? 12) || (n =? 13) || (n =? 32) || (n =? 160))%N.

Fixpoint dropWhile (f : ascii -> bool) (s : string) : string :=
  match s with
  | EmptyString => EmptyString
  | String c s' => if f c then dropWhile f s' else s
  end.

(** Removes the longest suffix whose characters all satisfy [f]. *)
Fixpoint dropWhileEnd (f : ascii -> bool) (s : string) : string :=
  match s with
  | EmptyString => EmptyString
  | String c s' =>
      match dropWhileEnd f s' with
      | EmptyString => if f c then EmptyString else String c EmptyString
      | r => String c r
      end
  end.

(** [s.trim()] *)
Definition trim (s : string) : string := dropWhileEnd isWhiteSpace (dropWhile isWhiteSpace s).

Definition isSlash (c : ascii) : bool := Ascii.eqb c slash.

(** [parts.join('/')] *)
Fixpoint join (parts : list string) : string :=
  match parts with
  | [] => EmptyString
  | [p] => p
  | p :: rest => p +:+ String slash (join rest)
  end.

(** JavaScript truthiness of a string: [Boolean(s)]. *)
Definition truthy (s : string) : bool := negb (String.eqb s EmptyString).

End JsString.

(** ** JavaScript values that the generators return *)

(** An object is kept as its own properties, in the order in which the
    language lists them, and its prototype: [None] for [Object.prototype],
    the prototype of an object literal, and [Some v] once [__proto__] has
    been set to [v]. *)
Inductive JsValue : Type :=
| JUndefined
| JNull
| JBool (b : bool)
| JNum (q : Q)
| JStr (s : string)
| JArr (items : list JsValue)
| JObj (fields : list (string * JsValue)) (proto : option JsValue).

Module JsObject.

(** The number that a string of digits writes, continuing from [acc]. *)
Fixpoint digitsValue (acc : N) (s : string) : option N :=
  match s with
  | EmptyString => Some acc
  | String c rest =>
      let n := N_of_ascii c in
      if ((48 <=? n) && (n <=? 57))%N then digitsValue (10 * acc + (n - 48))%N rest else None
  end.

(** A property key that is an array index: the decimal writing, without
    leading zeros, of a number below 2^32 - 1. *)
Definition arrayIndex (key : string) : option N :=
  match key with
  | EmptyString => None
  | String "0" EmptyString => Some 0%N
  | String "0" _ => None
  | _ =>
      match digitsValue 0 key with
      | Some n => if (n <? 4294967295)%N then Some n else None
      | None => None
      end
  end.

Definition hasOwn (fields : list (string * JsValue)) (key : string) : bool :=
  existsb (fun entry => String.eqb (fst entry) key) fields.

(** An own property whose key is the array index [n] is set: the array
    indices come first among the own properties, in ascending order. *)
Fixpoint setIndexed (fields : list (string * JsValue)) (n : N) (key : string) (v : JsValue)
  : list (string * JsValue) :=
  match fields with
  | [] => [(key, v)]
  | (k, w) :: rest =>
      match arrayIndex k with
      | Some m =>
          if (m =? n)%N then (k, v) :: rest
          else if (m <? n)%N then (k, w) :: setIndexed rest n key v
          else (key, v) :: fields
      | None => (key, v) :: fields
      end
  end.

(** An own property whose key is no array index is set: an existing key
    keeps its place and takes the new value, a new key goes to the end. *)
Fixpoint setNamed (fields : list (string * JsValue)) (key : string) (v : JsValue)
  : list (string * JsValue) :=
  match fields with
  | [] => [(key, v)]
  | (k, w) :: rest => if String.eqb k key then (k, v) :: rest else (k, w) :: setNamed rest key v
  end.

Definition defineOwn (fields : list (string * JsValue)) (key : string) (v : JsValue)
  : list (string * JsValue) :=
  match arrayIndex key with
  | Some n => setIndexed fields n key v
  | None => setNamed fields key v
  end.

(** Whether the prototype chain that starts at [v] ends in
    [Object.prototype], whose accessor [__proto__] an object then
    inherits. An array has [Array.prototype], then [Object.prototype]. *)
Fixpoint reachesObjectPrototype (v : JsValue) : bool :=
  match v with
  | JObj _ None => true
  | JObj _ (Some proto) => reachesObjectPrototype proto
  | JArr _ => true
  | _ => false
  end.

Definition inheritsProtoSetter (proto : option JsValue) : bool :=
  match proto with
  | None => true
  | Some v => reachesObjectPrototype v
  end.

End JsObject.

(** [example[key] = v] on an object that was created by an object literal
    and has data properties only. The key [__proto__], when the object has
    no own property of that name and inherits the accessor of
    [Object.prototype], reaches the setter: an object, an array or [null]
    becomes the prototype, another value is dropped, and no own property is
    made. Every other assignment sets an own property. *)
Definition obj_set (example : JsValue) (key : string) (v : JsValue) : JsValue :=
  match example with
  | JObj fields proto =>
      if String.eqb key "__proto__" && negb (JsObject.hasOwn fields key)
         && JsObject.inheritsProtoSetter proto
      then match v with
           | JNull | JArr _ | JObj _ _ => JObj fields (Some v)
           | _ => example
           end
      else JObj (JsObject.defineOwn fields key v) proto
  | _ => example
  end.

(** ** The ts-morph view of the program (input of the scanners) *)

Module TsMorph.

(** Types are nodes of a graph and are named by their index in it. *)
Definition TypeId := nat.

Record PropertyDeclaration : Type := {
  prop_getName : string;
  prop_getType : TypeId;
  prop_hasQuestionToken : bool;
  prop_hasInitializer : bool;
  (** [getJsDocs()], each with its [getDescription()] *)
  prop_getJsDocs : list string }.

(** A declaration of a symbol: its syntax kind and, for a class, its
    properties. *)
Record Declaration : Type := {
  decl_getKind : Z;
  decl_getProperties : list PropertyDeclaration }.

Record Type_ : Type := {
  getText : string;
  (** [Some e] when [isArray()], with [e] the element type *)
  getArrayElementType : option TypeId;
  isString : bool;
  isNumber : bool;
  isBoolean : bool;
  isEnum : bool;
  (** [compilerType.types] with the [value] of each member, when present *)
  enumMemberValues : option (list JsValue);
  isUnion : bool;
  getUnionTypes : list TypeId;
  isObject : bool;
  (** [getSymbol()] and its [getDeclarations()] *)
  getSymbol : option (list Declaration) }.

Definition isArray (t : Type_) : bool :=
  match getArrayElementType t with Some _ => true | None => false end.

Record ClassDeclaration : Type := {
  class_getName : option string;
  class_getProperties : list PropertyDeclaration;
  class_getJsDocs : list string }.

(** The type graph of a program. *)
Definition TypeGraph := list Type_.

(** The type an index outside the graph stands for: [any]. *)
Definition anyType : Type_ :=
  {| getText := "any"; getArrayElementType := None;
     isString := false; isNumber := false; isBoolean := false;
     isEnum := false; enumMemberValues := None;
     isUnion := false; getUnionTypes := [];
     isObject := false; getSymbol := None |}.

Definition node (g : TypeGraph) (t : TypeId) : Type_ :=
  match g !! t with Some ty => ty | None => anyType end.

(** Every text a type of the graph can print as. *)
Definition typeNames (g : TypeGraph) : gset string :=
  {[ getText anyType ]} ∪ list_to_set (getText <$> g).

(** A source file: its path and its classes, each seen as a [C]. *)
Record SourceFile (C : Type) : Type := {
  file_getFilePath : string;
  file_getClasses : list C }.
Arguments file_getFilePath {C} _.
Arguments file_getClasses {C} _.

End TsMorph.
Import TsMorph.

(** ** Metadata (interfaces/metadata.interface.ts) *)

Inductive TypeMetadata : Type := mkTypeMetadata {
  tm_type : string;
  tm_isPrimitive : bool;
  tm_isArray : bool;
  tm_isEnum : bool;
  tm_isOptional : bool;
  tm_elementType : option TypeMetadata;
  tm_properties : option (list PropertyMetadata);
  tm_unionTypes : option (list string);
  tm_enumValues : option (list JsValue);
  tm_format : option string }
with PropertyMetadata : Type := mkPropertyMetadata {
  pm_name : string;
  pm_type : TypeMetadata;
  pm_required : bool;
  pm_description : option string }.

Record DtoMetadata : Type := {
  dto_name : string;
  dto_properties : list PropertyMetadata;
  dto_description : option string }.

(** ** DtoAnalyzer (scanner/dto-analyzer.ts) *)

Module DtoAnalyzer.

Definition maxDepth : Z := 5.

(** The state of an analyzer: its [visitedTypes]. *)
Definition Visited := gset string.

(** A method that reads and updates [visitedTypes]; [None]: out of fuel. *)
Definition M (A : Type) : Type := Visited -> option (A * Visited).

Definition ret {A} (a : A) : M A := fun v => Some (a, v).

Definition bind {A B} (m : M A) (k : A -> M B) : M B :=
  fun v => match m v with
           | Some (a, v') => k a v'
           | None => None
           end.

#[local] Notation "'call' x <~ m ;; k" := (bind m (fun x => k))
  (at level 10, x name, m at level 99, k at level 200, only parsing).

(** [xs.map(f)] for a callback with effects, left to right. *)
Fixpoint mapM {A B} (f : A -> M B) (xs : list A) : M (list B) :=
  match xs with
  | [] => ret []
  | x :: rest => call y <~ f x ;; call ys <~ mapM f rest ;; ret (y :: ys)
  end.

(** The description of the first JSDoc block, trimmed. *)
Definition jsDocDescription (jsDocs : list string) : option string :=
  match jsDocs with
  | d :: _ => Some (JsString.trim d)
  | [] => None
  end.

Definition detectStringFormat (typeName : string) : option string :=
  let lowerType := JsString.toLowerCase typeName in
  if JsString.includes lowerType "email" then Some "email"
  else if JsString.includes lowerType "url" || JsString.includes lowerType "uri" then Some "uri"
  else if JsString.includes lowerType "uuid" then Some "uuid"
  else if JsString.includes lowerType "date" then Some "date-time"
  else None.

(** The descriptor returned beyond [maxDepth]. *)
Definition unknownType : TypeMetadata :=
  mkTypeMetadata "unknown" false false false false None None None None None.

(** The descriptor returned for a type name that is in [visitedTypes]. *)
Definition visitedReference (typeName : string) : TypeMetadata :=
  mkTypeMetadata typeName false false false false None None None None None.

(** [analyzeProperty], given the resolver it calls. *)
Definition analyzePropertyWith (analyze : TypeId -> Z -> M TypeMetadata)
    (property : PropertyDeclaration) : M PropertyMetadata :=
  let name := prop_getName property in
  let required := negb (prop_hasQuestionToken property) && negb (prop_hasInitializer property) in
  let description := jsDocDescription (prop_getJsDocs property) in
  call ty <~ analyze (prop_getType property) 0 ;;
  ret (mkPropertyMetadata name ty required description).

(** [isArray ? this.analyzeType(baseType, depth + 1) : undefined] *)
Definition analyzeElementWith (analyze : TypeId -> Z -> M TypeMetadata)
    (isArr : bool) (baseId : TypeId) (depth : Z) : M (option TypeMetadata) :=
  if isArr then call e <~ analyze baseId (depth + 1) ;; ret (Some e) else ret None.

(** [isArray ? type.getArrayElementTypeOrThrow() : type] *)
Definition baseTypeId (g : TypeGraph) (t : TypeId) : TypeId :=
  match getArrayElementType (node g t) with Some e => e | None => t end.

(** The properties of the class a type was declared as: the symbol exists,
    has a declaration, and the first one is of kind 256. *)
Definition classProperties (baseType : Type_) : option (list PropertyDeclaration) :=
  match getSymbol baseType with
  | Some (declaration :: _) =>
      if decl_getKind declaration =? 256 then Some (decl_getProperties declaration) else None
  | _ => None
  end.

(** The body of [analyzeType], with [self] for the calls of
    [this.analyzeType]. *)
Definition analyzeTypeWith (self : TypeId -> Z -> M TypeMetadata)
    (g : TypeGraph) (t : TypeId) (depth : Z) : M TypeMetadata :=
  if maxDepth <? depth then ret unknownType
  else
    let type := node g t in
    let typeName := getText type in
    fun visited =>
    if decide (typeName ∈ visited) then ret (visitedReference typeName) visited
    else
      (let isArr := isArray type in
       let baseId := baseTypeId g t in
       let baseType := node g baseId in
       call elementType <~ analyzeElementWith self isArr baseId depth ;;
       if isString baseType then
         ret (mkTypeMetadata "string" true isArr false false elementType None None None
                (detectStringFormat typeName))
       else if isNumber baseType then
         ret (mkTypeMetadata "number" true isArr false false elementType None None None None)
       else if isBoolean baseType then
         ret (mkTypeMetadata "boolean" true isArr false false elementType None None None None)
       else if JsString.includes typeName "Date" then
         ret (mkTypeMetadata "string" true isArr false false elementType None None None
                (Some "date-time"))
       else if isEnum baseType then
         let enumValues := match enumMemberValues baseType with Some vs => vs | None => [] end in
         ret (mkTypeMetadata "string" false isArr true false elementType None None
                (Some enumValues) None)
       else if isUnion baseType then
         ret (mkTypeMetadata typeName false isArr false false elementType None
                (Some ((fun u => getText (node g u)) <$> getUnionTypes baseType)) None None)
       else
         let fallback := mkTypeMetadata typeName false isArr false false elementType
                           None None None None in
         if isObject baseType then
           fun visited1 =>
           let visited2 : Visited := {[ typeName ]} ∪ visited1 in
           match classProperties baseType with
           | Some properties =>
               (call props <~ mapM (analyzePropertyWith self) properties ;;
                ret (mkTypeMetadata (getText baseType) false isArr false false elementType
                       (Some props) None None None)) visited2
           | None => ret fallback visited2
           end
         else ret fallback) visited.

(** [analyzeType]: each call takes one unit of fuel. *)
Fixpoint analyzeType (fuel : nat) (g : TypeGraph) (t : TypeId) (depth : Z) : M TypeMetadata :=
  match fuel with
  | O => fun _ => None
  | S fuel' => analyzeTypeWith (analyzeType fuel' g) g t depth
  end.

Definition analyzeProperty (fuel : nat) (g : TypeGraph) : PropertyDeclaration -> M PropertyMetadata :=
  analyzePropertyWith (analyzeType fuel g).

(** [analyzeDto]: clears [visitedTypes], then analyzes each property. *)
Definition analyzeDto (fuel : nat) (g : TypeGraph) (classDeclaration : ClassDeclaration)
  : M DtoMetadata :=
  fun _ =>
  let className := match class_getName classDeclaration with
                   | Some n => if JsString.truthy n then n else "UnknownDto"
                   | None => "UnknownDto"
                   end in
  let description := jsDocDescription (class_getJsDocs classDeclaration) in
  (call props <~ mapM (analyzeProperty fuel g) (class_getProperties classDeclaration) ;;
   ret {| dto_name := className; dto_properties := props; dto_description := description |})
    (∅ : Visited).

(** [cls.getName() === name] *)
Definition isNamed (name : string) (cls : ClassDeclaration) : bool :=
  match class_getName cls with
  | Some n => String.eqb n name
  | None => false
  end.

(** [findDtoByName]: the first class of that name, file by file. *)
Fixpoint findDtoByName (name : string) (sourceFiles : list (SourceFile ClassDeclaration))
  : option ClassDeclaration :=
  match sourceFiles with
  | [] => None
  | sourceFile :: rest =>
      match List.find (isNamed name) (file_getClasses sourceFile) with
      | Some found => Some found
      | None => findDtoByName name rest
      end
  end.

End DtoAnalyzer.

(** ** ExampleGenerator (generators/example-generator.ts) *)

Module ExampleGenerator.
Import JsString.

(** The [switch (format)] of [generatePrimitiveExample]; [None] when no
    case matches and control goes on to the field name. *)
Definition formatExample (format : string) : option JsValue :=
  if String.eqb format "email" then Some (JStr "user@example.com")
  else if String.eqb format "uri" || String.eqb format "url" then Some (JStr "https://example.com")
  else if String.eqb format "uuid" then Some (JStr "123e4567-e89b-12d3-a456-426614174000")
  else if String.eqb format "date" then Some (JStr "2026-01-19")
  else if String.eqb format "date-time" then Some (JStr "2026-01-19T12:00:00Z")
  else if String.eqb format "password" then Some (JStr "P@ssw0rd123")
  else None.

(** The field-name patterns, in their order; [None] when none matches. *)
Definition fieldNameExample (fieldName : string) : option JsValue :=
  let lowerName := toLowerCase fieldName in
  if includes lowerName "email" then Some (JStr "user@example.com")
  else if includes lowerName "firstname" || String.eqb lowerName "first_name" then Some (JStr "John")
  else if includes lowerName "lastname" || String.eqb lowerName "last_name" then Some (JStr "Doe")
  else if includes lowerName "name" && negb (includes lowerName "username") then
    Some (JStr "Example Name")
  else if includes lowerName "username" then Some (JStr "johndoe")
  else if includes lowerName "phone" || includes lowerName "mobile" then Some (JStr "+1234567890")
  else if includes lowerName "address" then Some (JStr "123 Main St")
  else if includes lowerName "city" then Some (JStr "New York")
  else if includes lowerName "country" then Some (JStr "USA")
  else if includes lowerName "zip" || includes lowerName "postal" then Some (JStr "10001")
  else if includes lowerName "url" || includes lowerName "website" then
    Some (JStr "https://example.com")
  else if endsWith lowerName "id" || includes lowerName "_id" then Some (JNum 1)
  else if includes lowerName "date" && negb (includes lowerName "update") then
    Some (JStr "2026-01-19")
  else if includes lowerName "createdat" then Some (JStr "2026-01-19T12:00:00Z")
  else if includes lowerName "updatedat" then Some (JStr "2026-01-19T12:00:00Z")
  else if includes lowerName "status" then Some (JStr "active")
  else if includes lowerName "role" then Some (JStr "user")
  else if includes lowerName "description" || includes lowerName "desc" then
    Some (JStr "Example description")
  else if includes lowerName "title" then Some (JStr "Example Title")
  else if includes lowerName "price" || includes lowerName "amount" then Some (JNum (9999 # 100))
  else if includes lowerName "quantity" || includes lowerName "count" then Some (JNum 10)
  else if includes lowerName "is" || includes lowerName "has" || includes lowerName "can" then
    Some (JBool true)
  else None.

(** The final [switch (type)]. *)
Definition typeExample (type : string) : JsValue :=
  if String.eqb type "string" then JStr "example"
  else if String.eqb type "number" then JNum 42
  else if String.eqb type "integer" then JNum 42
  else if String.eqb type "boolean" then JBool true
  else JNull.

Definition generatePrimitiveExample (typeMetadata : TypeMetadata) (fieldName : option string)
  : JsValue :=
  let type := tm_type typeMetadata in
  let format := tm_format typeMetadata in
  match (match format with
         | Some f => if truthy f then formatExample f else None
         | None => None
         end) with
  | Some example => example
  | None =>
      match (match fieldName with
             | Some n => if truthy n then fieldNameExample n else None
             | None => None
             end) with
      | Some example => example
      | None => typeExample type
      end
  end.

(** [generateFromType]; the call [generateExample(prop)] made for each
    property of an object is [generateFromType(prop.type, prop.name)]. *)
Fixpoint generateFromType (typeMetadata : TypeMetadata) (fieldName : option string) : JsValue :=
  if tm_isPrimitive typeMetadata then generatePrimitiveExample typeMetadata fieldName
  else
    match tm_isArray typeMetadata, tm_elementType typeMetadata with
    | true, Some elementType => JArr [generateFromType elementType None]
    | _, _ =>
        match tm_isEnum typeMetadata, tm_enumValues typeMetadata with
        | true, Some (first :: _) => first
        | _, _ =>
            match tm_properties typeMetadata with
            | Some properties =>
                (fix each (props : list PropertyMetadata) (example : JsValue) :=
                   match props with
                   | [] => example
                   | prop :: rest =>
                       each rest
                         (obj_set example (pm_name prop)
                            (generateFromType (pm_type prop) (Some (pm_name prop))))
                   end) properties (JObj [] None)
            | None => JNull
            end
        end
    end.

Definition generateExample (property : PropertyMetadata) : JsValue :=
  generateFromType (pm_type property) (Some (pm_name property)).

Definition generateObjectExample (properties : list PropertyMetadata) : JsValue :=
  fold_left (fun example property => obj_set example (pm_name property) (generateExample property))
    properties (JObj [] None).

End ExampleGenerator.

(** ** ValidatorExtractor (scanner/validator-extractor.ts) *)

Record ValidatorMetadata : Type := {
  vm_name : string;
  vm_args : option (list JsValue);
  (** the [constraints] object, as its list of properties *)
  vm_constraints : list (string * JsValue) }.

(** A decorator: its name and the text of each argument. *)
Record Decorator : Type := {
  dec_getName : string;
  dec_getArguments : list string }.

Module ValidatorExtractor.

(** The names with a [case] of their own in [mapValidatorDecorator]. *)
Definition recognized : list string :=
  [ "IsString"; "IsEmail"; "IsUrl"; "IsURL"; "IsUUID"; "MinLength"; "MaxLength"; "Length";
    "Matches"; "IsNumber"; "IsInt"; "IsDecimal"; "Min"; "Max"; "IsBoolean"; "IsDate";
    "IsDateString"; "IsEnum"; "IsArray"; "ArrayMinSize"; "ArrayMaxSize"; "IsOptional";
    "IsNotEmpty"; "IsObject" ].

(** [text.replace(/^\/|\/$/g, '')]: one slash off the front, then one off
    the end of what remains. *)
Definition stripDelimiters (text : string) : string :=
  let rest := match text with
              | String c s => if JsString.isSlash c then s else text
              | EmptyString => text
              end in
  (fix dropLast (s : string) : string :=
     match s with
     | EmptyString => EmptyString
     | String c EmptyString => if JsString.isSlash c then EmptyString else s
     | String c s' => String c (dropLast s')
     end) rest.

Section WithParseInt.

(** The built-in [parseInt] in one argument: [None] for NaN. *)
Variable parseInt : string -> option Q.

(** [parseArgument(args[i])] *)
Definition parseArgument (arg : option string) : JsValue :=
  match arg with
  | None => JUndefined
  | Some text =>
      match parseInt text with
      | Some num => JNum num
      | None => JStr text
      end
  end.

Definition extractEnumValues (enumArg : string) : list JsValue := [JStr enumArg].

Definition plain (name : string) (constraints : list (string * JsValue)) : ValidatorMetadata :=
  {| vm_name := name; vm_args := None; vm_constraints := constraints |}.

Definition mapValidatorDecorator (decorator : Decorator) : option ValidatorMetadata :=
  let name := dec_getName decorator in
  let args := dec_getArguments decorator in
  let arg0 := parseArgument (args !! 0%nat) in
  let arg1 := parseArgument (args !! 1%nat) in
  let named (c : string) := String.eqb name c in
  if named "IsString" then Some (plain name [("type", JStr "string")])
  else if named "IsEmail" then Some (plain name [("format", JStr "email")])
  else if named "IsUrl" || named "IsURL" then Some (plain name [("format", JStr "uri")])
  else if named "IsUUID" then Some (plain name [("format", JStr "uuid")])
  else if named "MinLength" then
    Some {| vm_name := name; vm_args := Some [arg0]; vm_constraints := [("minLength", arg0)] |}
  else if named "MaxLength" then
    Some {| vm_name := name; vm_args := Some [arg0]; vm_constraints := [("maxLength", arg0)] |}
  else if named "Length" then
    Some {| vm_name := name; vm_args := Some [arg0; arg1];
            vm_constraints := [("minLength", arg0); ("maxLength", arg1)] |}
  else if named "Matches" then
    let text := match args !! 0%nat with Some t => JStr t | None => JUndefined end in
    let pattern := match args !! 0%nat with
                   | Some t => JStr (stripDelimiters t)
                   | None => JUndefined
                   end in
    Some {| vm_name := name; vm_args := Some [text]; vm_constraints := [("pattern", pattern)] |}
  else if named "IsNumber" || named "IsInt" || named "IsDecimal" then
    Some (plain name [("type", JStr "number")])
  else if named "Min" then
    Some {| vm_name := name; vm_args := Some [arg0]; vm_constraints := [("minimum", arg0)] |}
  else if named "Max" then
    Some {| vm_name := name; vm_args := Some [arg0]; vm_constraints := [("maximum", arg0)] |}
  else if named "IsBoolean" then Some (plain name [("type", JStr "boolean")])
  else if named "IsDate" || named "IsDateString" then Some (plain name [("format", JStr "date-time")])
  else if named "IsEnum" then
    match args !! 0%nat with
    | Some enumArg =>
        Some {| vm_name := name; vm_args := Some [JStr enumArg];
                vm_constraints := [("enum", JArr (extractEnumValues enumArg))] |}
    | None => Some (plain name [])
    end
  else if named "IsArray" then Some (plain name [("type", JStr "array")])
  else if named "ArrayMinSize" then
    Some {| vm_name := name; vm_args := Some [arg0]; vm_constraints := [("minItems", arg0)] |}
  else if named "ArrayMaxSize" then
    Some {| vm_name := name; vm_args := Some [arg0]; vm_constraints := [("maxItems", arg0)] |}
  else if named "IsOptional" then Some (plain name [("required", JBool false)])
  else if named "IsNotEmpty" then Some (plain name [("required", JBool true)])
  else if named "IsObject" then Some (plain name [("type", JStr "object")])
  else if JsString.startsWith name "Is" || JsString.startsWith name "Validate" then
    Some (plain name [])
  else None.

(** [extractValidators], on the decorators of a property *)
Definition extractValidators (decorators : list Decorator) : list ValidatorMetadata :=
  omap mapValidatorDecorator decorators.

End WithParseInt.

End ValidatorExtractor.

(** ** ConfigService (core/config/config.service.ts) *)

(** A property of an options object: not an own property of the object, an
    own property holding [undefined], or an own property with a value. *)
Inductive Field (A : Type) : Type :=
| Absent
| Undefined
| Present (value : A).
Arguments Absent {A}.
Arguments Undefined {A}.
Arguments Present {A} value.

(** [AutoDocsOptions] (interfaces/options.interface.ts). The structured
    options that the service only carries along are kept as values. *)
Record AutoDocsOptions : Type := {
  opt_title : Field string;
  opt_version : Field string;
  opt_description : Field string;
  opt_sourcePath : Field string;
  opt_globalPrefix : Field string;
  opt_docsPath : Field string;
  opt_specPath : Field string;
  opt_servers : Field JsValue;
  opt_theme : Field JsValue;
  opt_categoryMapping : Field JsValue;
  opt_scanOnStart : Field bool;
  opt_watchMode : Field bool;
  opt_exclude : Field JsValue;
  opt_includeSecurity : Field bool;
  opt_securityScheme : Field JsValue;
  opt_versioning : Field JsValue }.

Module ConfigService.

(** [!s || s.trim() === ''] *)
Definition missingOrEmpty (s : Field string) : bool :=
  match s with
  | Present text => negb (JsString.truthy text) || String.eqb (JsString.trim text) EmptyString
  | _ => true
  end.

(** [text] between double quotes *)
Definition quoted (text : string) : string :=
  String (ascii_of_nat 34) text +:+ String (ascii_of_nat 34) EmptyString.

(** [validateRequiredFields]: the message of the error thrown, if any. *)
Definition validateRequiredFields (options : AutoDocsOptions) : option string :=
  if missingOrEmpty (opt_title options) then
    Some ("AutoDocs configuration error: " +:+ quoted "title" +:+
          " is required and cannot be empty")
  else if missingOrEmpty (opt_version options) then
    Some ("AutoDocs configuration error: " +:+ quoted "version" +:+
          " is required and cannot be empty")
  else None.

(** [value || fallback] on a string option *)
Definition orDefault (value : Field string) (fallback : string) : string :=
  match value with
  | Present text => if JsString.truthy text then text else fallback
  | _ => fallback
  end.

(** [value ?? fallback] *)
Definition nullish (value : Field bool) (fallback : bool) : bool :=
  match value with
  | Present b => b
  | _ => fallback
  end.

(** [{ key: below, ...options }] at one key: an own property of [options]
    replaces the one written before the spread. *)
Definition spread {A} (below : A) (own : Field A) : Field A :=
  match own with
  | Absent => Present below
  | _ => own
  end.

Definition mergeWithDefaults (options : AutoDocsOptions) : AutoDocsOptions :=
  {| opt_title := opt_title options;
     opt_version := opt_version options;
     opt_description := opt_description options;
     opt_sourcePath := spread (orDefault (opt_sourcePath options) "src") (opt_sourcePath options);
     opt_globalPrefix := opt_globalPrefix options;
     opt_docsPath := spread (orDefault (opt_docsPath options) "/docs") (opt_docsPath options);
     opt_specPath := spread (orDefault (opt_specPath options) "/docs-json") (opt_specPath options);
     opt_servers := opt_servers options;
     opt_theme := opt_theme options;
     opt_categoryMapping := opt_categoryMapping options;
     opt_scanOnStart := spread (nullish (opt_scanOnStart options) true) (opt_scanOnStart options);
     opt_watchMode := spread (nullish (opt_watchMode options) false) (opt_watchMode options);
     opt_exclude := opt_exclude options;
     opt_includeSecurity :=
       spread (nullish (opt_includeSecurity options) true) (opt_includeSecurity options);
     opt_securityScheme := opt_securityScheme options;
     opt_versioning := opt_versioning options |}.

(** The constructor: the error thrown, or the [config] of the new service. *)
Definition new (options : AutoDocsOptions) : string + AutoDocsOptions :=
  match validateRequiredFields options with
  | Some message => inl message
  | None => inr (mergeWithDefaults options)
  end.

(** [getAll] *)
Definition getAll (config : AutoDocsOptions) : AutoDocsOptions := config.

End ConfigService.

(** ** AutoDocsModule (module/auto-docs.module.ts) *)

Module AutoDocsModule.

(** [mergedOptions] of [forRoot]: the six defaults, then the own properties
    of the options spread over them. *)
Definition mergedOptions (options : AutoDocsOptions) : AutoDocsOptions :=
  {| opt_title := opt_title options;
     opt_version := opt_version options;
     opt_description := opt_description options;
     opt_sourcePath := ConfigService.spread "src" (opt_sourcePath options);
     opt_globalPrefix := opt_globalPrefix options;
     opt_docsPath := ConfigService.spread "/docs" (opt_docsPath options);
     opt_specPath := ConfigService.spread "/docs-json" (opt_specPath options);
     opt_servers := opt_servers options;
     opt_theme := opt_theme options;
     opt_categoryMapping := opt_categoryMapping options;
     opt_scanOnStart := ConfigService.spread true (opt_scanOnStart options);
     opt_watchMode := ConfigService.spread false (opt_watchMode options);
     opt_exclude := opt_exclude options;
     opt_includeSecurity := ConfigService.spread true (opt_includeSecurity options);
     opt_securityScheme := opt_securityScheme options;
     opt_versioning := opt_versioning options |}.

End AutoDocsModule.

(** ** Path helpers *)

Module PathUtils.
Import JsString.

(** [segment.replace(/^\/+|\/+$/g, '')] *)
Definition stripSlashes (segment : string) : string :=
  dropWhileEnd isSlash (dropWhile isSlash segment).

(** [combinePaths] of utils/path-utils.spec.ts, which the specification
    calls [combinePathSegments]. *)
Definition combinePaths (segments : list string) : string :=
  join (List.filter truthy (stripSlashes <$> List.filter truthy segments)).

(** [\w]: a letter A-Z or a-z, a digit, or the underscore. *)
Definition isWordChar (c : ascii) : bool :=
  let n := N_of_ascii c in
  (((65 <=? n) && (n <=? 90)) || ((97 <=? n) && (n <=? 122))
   || ((48 <=? n) && (n <=? 57)) || (n =? 95))%N.

(** [\d] *)
Definition isDigit (c : ascii) : bool :=
  let n := N_of_ascii c in ((48 <=? n) && (n <=? 57))%N.

Definition startsWithWordChar (s : string) : bool :=
  match s with
  | String c _ => isWordChar c
  | EmptyString => false
  end.

(** [convertParams] of utils/path-utils.spec.ts,
    [path.replace(/:(\w+)/g, '{$1}')]: a colon directly before a word
    character opens a brace, and the brace closes where the run of word
    characters ends. [inParam] tells that a brace is open. *)
Fixpoint convertParamsFrom (inParam : bool) (path : string) : string :=
  match path with
  | EmptyString => if inParam then "}" else EmptyString
  | String c rest =>
      let outside :=
        if Ascii.eqb c ":" && startsWithWordChar rest
        then String "{" (convertParamsFrom true rest)
        else String c (convertParamsFrom false rest) in
      if inParam
      then (if isWordChar c then String c (convertParamsFrom true rest) else String "}" outside)
      else outside
  end.

Definition convertParams (path : string) : string := convertParamsFrom false path.

(** The longest run of digits at the front of [s], and what follows it. *)
Fixpoint spanDigits (s : string) : string * string :=
  match s with
  | String c rest =>
      if isDigit c then (let '(ds, after) := spanDigits rest in (String c ds, after))
      else (EmptyString, s)
  | EmptyString => (EmptyString, EmptyString)
  end.

(** [/\/(v\d+)\//] tried at the front of [s]: the group, when it matches. *)
Definition versionAtFront (s : string) : option string :=
  match s with
  | String "/" (String "v" rest) =>
      match spanDigits rest with
      | (String d ds, String "/" _) => Some (String "v" (String d ds))
      | _ => None
      end
  | _ => None
  end.

(** [path.match(versionRegex)?.[1]] with the [versionRegex] of
    utils/path-utils.spec.ts: the group of the leftmost match. *)
Fixpoint versionMatch (path : string) : option string :=
  match versionAtFront path with
  | Some version => Some version
  | None =>
      match path with
      | String _ rest => versionMatch rest
      | EmptyString => None
      end
  end.

End PathUtils.

(** ** RouteScanner *)

Module RouteScanner.

(** Modelled from the spec: scanner/route-scanner.ts is not part of the
    sources at hand. By section 4.4 the full path of a route is
    [combinePathSegments([basePath, routePath])]; the slash in front of it
    is the one that the full paths in the tests of the repository carry
    ([/test/items] and [/test] in scanner/route-scanner.spec.ts,
    [/admin/profile] and [/health] in the versioning test). *)
Definition fullPath (controllerPath routePath : string) : string :=
  "/" +:+ PathUtils.combinePaths [controllerPath; routePath].

End RouteScanner.

(** ** OpenApiGenerator *)

(** [RouteMetadata] and [ControllerMetadata]
    (interfaces/metadata.interface.ts), with the fields the generator reads
    when it lays out paths and servers. *)
Record RouteMetadata : Type := {
  route_name : string;
  route_httpMethod : string;
  route_path : string;
  route_fullPath : string;
  route_isPublic : option bool }.

Record ControllerMetadata : Type := {
  ctrl_name : string;
  ctrl_path : string;
  ctrl_filePath : string;
  ctrl_category : string;
  ctrl_version : option string;
  ctrl_routes : list RouteMetadata }.

(** [ServerObject] (interfaces/openapi.interface.ts) *)
Record ServerObject : Type := {
  server_url : string;
  server_description : string }.

Module OpenApiGenerator.
Import JsString.

(** Modelled from the spec: the configuration read by the missing
    generator, [versioning] with [enabled: true], its [prefix] and its
    [fallback] (section 6). *)
Record Versioning : Type := {
  prefix : string;
  fallback : string }.

(** Modelled from the spec: the part of the specification document that
    depends on versioning, the path table (path key, then HTTP method,
    then the name of the handler) and the server list (section 3). *)
Record Document : Type := {
  paths : list (string * list (string * string));
  servers : list ServerObject }.

(** Modelled from the spec: "uppercased" (section 4.6), as the
    upper-casing of a-z and of the Latin-1 small letters whose capital is a
    code unit below 256 as well. *)
Definition upperChar (c : ascii) : ascii :=
  let n := N_of_ascii c in
  if ((97 <=? n) && (n <=? 122))%N then ascii_of_N (n - 32)
  else if ((224 <=? n) && (n <=? 254) && negb (n =? 247))%N then ascii_of_N (n - 32)
  else c.

Fixpoint toUpperCase (s : string) : string :=
  match s with
  | EmptyString => EmptyString
  | String c s' => String (upperChar c) (toUpperCase s')
  end.

(** Modelled from the spec: generators/openapi-generator.ts is missing
    from the sources (only its integration test is there). By section 4.6:
    with versioning enabled each version gets the path prefix
    [prefix + '/' + version], a service without a version the configured
    fallback prefix. *)
Definition versionPrefix (v : Versioning) (controller : ControllerMetadata) : string :=
  match ctrl_version controller with
  | Some version => prefix v +:+ "/" +:+ version
  | None => fallback v
  end.

(** Modelled from the spec: path keys of the missing generator. By
    section 4.6 path keys are stored without a leading separator; the
    prefix and the route's path are put together as [combinePathSegments]
    does. *)
Definition pathKey (pathPrefix : string) (route : RouteMetadata) : string :=
  PathUtils.combinePaths [pathPrefix; route_fullPath route].

(** Modelled from the spec: a table of the document as a list of entries;
    [table[key] = update(table[key])], a new key going to the end. *)
Fixpoint upsert {V} (table : list (string * V)) (key : string) (empty : V) (update : V -> V)
  : list (string * V) :=
  match table with
  | [] => [(key, update empty)]
  | (k, w) :: rest =>
      if String.eqb k key then (k, update w) :: rest
      else (k, w) :: upsert rest key empty update
  end.

(** Modelled from the spec: the path table of the missing generator.
    By section 4.6: routes are grouped by the version of their service and
    mounted under that version's prefix; services that share a prefix
    merge into the same table. *)
Definition generatePaths (v : Versioning) (controllers : list ControllerMetadata)
  : list (string * list (string * string)) :=
  fold_left
    (fun table controller =>
       fold_left
         (fun table route =>
            upsert table (pathKey (versionPrefix v controller) route) []
              (fun operations =>
                 upsert operations (route_httpMethod route) EmptyString
                   (fun _ => route_name route)))
         (ctrl_routes controller) table)
    controllers [].

(** Modelled from the spec: the versions of the services (section 4.6,
    "grouped by each service's resolved version"), each once, in order of
    appearance. *)
Fixpoint versionsOf (controllers : list ControllerMetadata) (seen : list string) : list string :=
  match controllers with
  | [] => []
  | controller :: rest =>
      match ctrl_version controller with
      | Some version =>
          if existsb (String.eqb version) seen then versionsOf rest seen
          else version :: versionsOf rest (version :: seen)
      | None => versionsOf rest seen
      end
  end.

(** Modelled from the spec: the server list of the missing generator.
    By section 4.6: each version gets its own server entry, at its path
    prefix, labeled "API <VERSION>" with the version uppercased. *)
Definition generateServers (v : Versioning) (controllers : list ControllerMetadata)
  : list ServerObject :=
  (fun version => {| server_url := prefix v +:+ "/" +:+ version;
                     server_description := "API " +:+ toUpperCase version |})
    <$> versionsOf controllers [].

(** Modelled from the spec: [synthesize] of section 4.6 with versioning
    enabled, for the missing [OpenApiGenerator.generate]. *)
Definition generate (v : Versioning) (controllers : list ControllerMetadata) : Document :=
  {| paths := generatePaths v controllers;
     servers := generateServers v controllers |}.

End OpenApiGenerator.

(** ** ModuleScanner (scanner/module-scanner.ts) *)

(** A class as the module scanner reads it: its name and its decorators. *)
Record DecoratedClass : Type := {
  dclass_getName : option string;
  dclass_getDecorators : list Decorator }.

Record ModuleInfo : Type := {
  mod_name : string;
  mod_filePath : string;
  mod_controllers : list string;
  mod_imports : list string }.

Module ModuleScanner.
Import JsString.

(** [text.split(',')] *)
Fixpoint splitComma (text : string) : list string :=
  match text with
  | EmptyString => [EmptyString]
  | String c rest =>
      match splitComma rest with
      | piece :: pieces =>
          if Ascii.eqb c "," then EmptyString :: piece :: pieces else String c piece :: pieces
      | [] => [String c EmptyString]
      end
  end.

(** A line terminator below 256: LF or CR, which [.] does not match. *)
Definition isLineTerminator (c : ascii) : bool :=
  let n := N_of_ascii c in ((n =? 10) || (n =? 13))%N.

(** A [*/] comes in [s] before any line terminator. *)
Fixpoint closesOnLine (s : string) : bool :=
  match s with
  | EmptyString => false
  | String c rest =>
      if isLineTerminator c then false
      else if Ascii.eqb c "*" && String.prefix "/" rest then true
      else closesOnLine rest
  end.

(** Where [removeBlockComments] is in the text: in code, on the star that
    opens a comment, inside a comment, or on the slash that closes it. *)
Inductive CommentState : Type := Code | Opening | Inside | Closing.

(** [c.replace(/\/\*.*?\*\//g, '')] *)
Fixpoint removeBlockCommentsFrom (state : CommentState) (s : string) : string :=
  match s with
  | EmptyString => EmptyString
  | String c rest =>
      match state with
      | Code =>
          if Ascii.eqb c "/"
             && match rest with
                | String "*" after => closesOnLine after
                | _ => false
                end
          then removeBlockCommentsFrom Opening rest
          else String c (removeBlockCommentsFrom Code rest)
      | Opening => removeBlockCommentsFrom Inside rest
      | Inside =>
          if Ascii.eqb c "*" && String.prefix "/" rest
          then removeBlockCommentsFrom Closing rest
          else removeBlockCommentsFrom Inside rest
      | Closing => removeBlockCommentsFrom Code rest
      end
  end.

Definition removeBlockComments (s : string) : string := removeBlockCommentsFrom Code s.

(** What follows [prefix] in [s], when [s] starts with it. *)
Fixpoint afterPrefix (prefix s : string) : option string :=
  match prefix, s with
  | EmptyString, _ => Some s
  | String p prefix', String c s' => if Ascii.eqb p c then afterPrefix prefix' s' else None
  | String _ _, EmptyString => None
  end.

(** The text before the first closing bracket of [s], when there is one. *)
Fixpoint untilBracket (s : string) : option string :=
  match s with
  | EmptyString => None
  | String c rest => if Ascii.eqb c "]" then Some EmptyString else String c <$> untilBracket rest
  end.

(** [/key\s*\[(.*?)\]/s] tried at the front of [s]: the group. *)
Definition arrayAtFront (key s : string) : option string :=
  match afterPrefix key s with
  | Some after =>
      match dropWhile isWhiteSpace after with
      | String "[" inner => untilBracket inner
      | _ => None
      end
  | None => None
  end.

(** [text.match(/key\s*\[(.*?)\]/s)?.[1]]: the group of the leftmost match. *)
Fixpoint arrayMatch (key text : string) : option string :=
  match arrayAtFront key text with
  | Some inner => Some inner
  | None =>
      match text with
      | String _ rest => arrayMatch key rest
      | EmptyString => None
      end
  end.

(** The pipeline that [extractControllers] and [extractImports] share: the
    text of the array is split at commas, each piece trimmed, the empty
    pieces and the ones that start a line comment dropped, block comments
    removed and each piece trimmed again. *)
Definition arrayEntries (inner : string) : list string :=
  (fun c => trim (removeBlockComments c))
    <$> List.filter (fun c => truthy c && negb (startsWith c "//")) (trim <$> splitComma inner).

Definition extractControllers (decorator : Decorator) : list string :=
  match dec_getArguments decorator with
  | [] => []
  | text :: _ =>
      match arrayMatch "controllers:" text with
      | None => []
      | Some controllersText => arrayEntries controllersText
      end
  end.

(** The longest run of word characters at the front of [s], and what
    follows it. *)
Fixpoint spanWord (s : string) : string * string :=
  match s with
  | String c rest =>
      if PathUtils.isWordChar c then (let '(w, after) := spanWord rest in (String c w, after))
      else (EmptyString, s)
  | EmptyString => (EmptyString, EmptyString)
  end.

(** [i.match(/(\w+)\.forRoot/)?.[1]] *)
Fixpoint forRootMatch (i : string) : option string :=
  match spanWord i with
  | (String c w, after) =>
      if String.prefix ".forRoot" after then Some (String c w)
      else match i with
           | String _ rest => forRootMatch rest
           | EmptyString => None
           end
  | (EmptyString, _) =>
      match i with
      | String _ rest => forRootMatch rest
      | EmptyString => None
      end
  end.

Definition extractImports (decorator : Decorator) : list string :=
  match dec_getArguments decorator with
  | [] => []
  | text :: _ =>
      match arrayMatch "imports:" text with
      | None => []
      | Some importsText =>
          (fun i => match forRootMatch i with Some name => name | None => i end)
            <$> arrayEntries importsText
      end
  end.

(** [moduleName.replace(/Module$/, '')] *)
Fixpoint removeModuleSuffix (moduleName : string) : string :=
  if String.eqb moduleName "Module" then EmptyString
  else match moduleName with
       | EmptyString => EmptyString
       | String c rest => String c (removeModuleSuffix rest)
       end.

Definition isCapital (c : ascii) : bool :=
  let n := N_of_ascii c in ((65 <=? n) && (n <=? 90))%N.

Definition startsWithCapital (s : string) : bool :=
  match s with
  | String c _ => isCapital c
  | EmptyString => false
  end.

(** [name.split(/(?=[A-Z])/)]: a new piece starts at every capital letter
    but the first character. *)
Fixpoint splitBeforeCapitals (name : string) : list string :=
  match name with
  | EmptyString => [EmptyString]
  | String c rest =>
      match splitBeforeCapitals rest with
      | piece :: pieces =>
          if startsWithCapital rest then String c EmptyString :: piece :: pieces
          else String c piece :: pieces
      | [] => [String c EmptyString]
      end
  end.

(** [parts.join(' ')] *)
Fixpoint joinSpace (parts : list string) : string :=
  match parts with
  | [] => EmptyString
  | [p] => p
  | p :: rest => p +:+ String " " (joinSpace rest)
  end.

Definition formatModuleName (moduleName : string) : string :=
  let name := removeModuleSuffix moduleName in
  let parts := List.filter truthy (splitBeforeCapitals name) in
  joinSpace parts.

Definition findModuleDecorator (classDeclaration : DecoratedClass) : option Decorator :=
  List.find (fun dec => String.eqb (dec_getName dec) "Module")
    (dclass_getDecorators classDeclaration).

(** [extractModuleInfo]; nothing it calls throws here, so it always returns
    the record. *)
Definition extractModuleInfo (classDeclaration : DecoratedClass) (moduleDecorator : Decorator)
    (sourceFile : SourceFile DecoratedClass) : option ModuleInfo :=
  let moduleName := match dclass_getName classDeclaration with
                    | Some n => if truthy n then n else "UnknownModule"
                    | None => "UnknownModule"
                    end in
  Some {| mod_name := moduleName;
          mod_filePath := file_getFilePath sourceFile;
          mod_controllers := extractControllers moduleDecorator;
          mod_imports := extractImports moduleDecorator |}.

Definition extractModulesFromFile (sourceFile : SourceFile DecoratedClass) : list ModuleInfo :=
  omap (fun classDeclaration =>
          match findModuleDecorator classDeclaration with
          | Some moduleDecorator => extractModuleInfo classDeclaration moduleDecorator sourceFile
          | None => None
          end)
    (file_getClasses sourceFile).

(** [module.controllers.includes(controllerName)] *)
Definition listsController (controllerName : string) (module : ModuleInfo) : bool :=
  existsb (String.eqb controllerName) (mod_controllers module).

Fixpoint findModuleForController (controllerName : string)
    (sourceFiles : list (SourceFile DecoratedClass)) : option string :=
  match sourceFiles with
  | [] => None
  | sourceFile :: rest =>
      match List.find (listsController controllerName) (extractModulesFromFile sourceFile) with
      | Some module => Some (formatModuleName (mod_name module))
      | None => findModuleForController controllerName rest
      end
  end.

(** [buildModuleTree]; the map is read by key only, so the order in which a
    [Map] lists its entries is left out. *)
Definition buildModuleTree (sourceFiles : list (SourceFile DecoratedClass))
  : gmap string ModuleInfo :=
  fold_left
    (fun moduleMap sourceFile =>
       fold_left (fun moduleMap module => <[ mod_name module := module ]> moduleMap)
         (extractModulesFromFile sourceFile) moduleMap)
    sourceFiles ∅.

End ModuleScanner.

(** ** Sample programs *)

Module Samples.

Definition stringType : Type_ :=
  {| getText := "string"; getArrayElementType := None;
     isString := true; isNumber := false; isBoolean := false;
     isEnum := false; enumMemberValues := None;
     isUnion := false; getUnionTypes := [];
     isObject := false; getSymbol := None |}.

Definition numberType : Type_ :=
{| getText := "number"; getArrayElementType := None;
   isString := false; isNumber := true; isBoolean := false;
   isEnum := false; enumMemberValues := None;
   isUnion := false; getUnionTypes := [];
   isObject := false; getSymbol := None |}.

(** [class name { ... }] with the given properties *)
Definition classType (name : string) (properties : list PropertyDeclaration) : Type_ :=
  {| getText := name; getArrayElementType := None;
     isString := false; isNumber := false; isBoolean := false;
     isEnum := false; enumMemberValues := None;
     isUnion := false; getUnionTypes := [];
     isObject := true;
     getSymbol := Some [ {| decl_getKind := 256; decl_getProperties := properties |} ] |}.

(** The array type that prints as [text], with element type [elem]; its
    symbol is the interface [Array]. *)
Definition arrayType (text : string) (elem : TypeId) : Type_ :=
  {| getText := text; getArrayElementType := Some elem;
     isString := false; isNumber := false; isBoolean := false;
     isEnum := false; enumMemberValues := None;
     isUnion := false; getUnionTypes := [];
     isObject := true;
     getSymbol := Some [ {| decl_getKind := 257; decl_getProperties := [] |} ] |}.

(** [name: type;] *)
Definition field (name : string) (type : TypeId) : PropertyDeclaration :=
  {| prop_getName := name; prop_getType := type;
     prop_hasQuestionToken := false; prop_hasInitializer := false;
     prop_getJsDocs := [] |}.

(** [class Employee { name: string; manager: Employee }] *)
Definition selfGraph : TypeGraph :=
  [ classType "Employee" [ field "name" 1%nat; field "manager" 0%nat ];
    stringType ].

(** [class Level0 { next: Level1 }] ... [class Level6 { next: Level7 }],
    [class Level7 { value: string }] *)
Definition chainGraph : TypeGraph :=
  [ classType "Level0" [ field "next" 1%nat ];
    classType "Level1" [ field "next" 2%nat ];
    classType "Level2" [ field "next" 3%nat ];
    classType "Level3" [ field "next" 4%nat ];
    classType "Level4" [ field "next" 5%nat ];
    classType "Level5" [ field "next" 6%nat ];
    classType "Level6" [ field "next" 7%nat ];
    classType "Level7" [ field "value" 8%nat ];
    stringType ].

(** [string[][][][][][][]] and its element types, down to [string] *)
Definition nestedArrayGraph : TypeGraph :=
  [ arrayType "string[][][][][][][]" 1%nat;
    arrayType "string[][][][][][]" 2%nat;
    arrayType "string[][][][][]" 3%nat;
    arrayType "string[][][][]" 4%nat;
    arrayType "string[][][]" 5%nat;
    arrayType "string[][]" 6%nat;
    arrayType "string[]" 7%nat;
    stringType ].

(** [class Order { customer: Customer }], [class Customer { name: string }] *)
Definition orderGraph : TypeGraph :=
  [ classType "Order" [ field "customer" 1%nat ];
    classType "Customer" [ field "name" 2%nat ];
    stringType ].

(** What [Customer] and [Order] resolve to on a new analyzer *)
Definition customerDescriptor : TypeMetadata :=
  mkTypeMetadata "Customer" false false false false None
    (Some [ mkPropertyMetadata "name"
              (mkTypeMetadata "string" true false false false None None None None None)
              true None ])
    None None None.

Definition orderDescriptor : TypeMetadata :=
  mkTypeMetadata "Order" false false false false None
    (Some [ mkPropertyMetadata "customer" customerDescriptor true None ])
    None None None.

(** [string[]] and [string]; [tags: string[]] *)
Definition tagsGraph : TypeGraph := [ arrayType "string[]" 1%nat; stringType ].
Definition tagsProperty : PropertyDeclaration := field "tags" 0%nat.

(** [count = 0] of type [number], a property with an initializer *)
Definition countGraph : TypeGraph := [ numberType ].
Definition countProperty : PropertyDeclaration :=
  {| prop_getName := "count"; prop_getType := 0%nat;
     prop_hasQuestionToken := false; prop_hasInitializer := true;
     prop_getJsDocs := [] |}.

Definition stringMetadata (format : option string) : TypeMetadata :=
  mkTypeMetadata "string" true false false false None None None None format.

(** A property named [email] whose type has the declared format [uri] *)
Definition emailUriProperty : PropertyMetadata :=
  mkPropertyMetadata "email" (stringMetadata (Some "uri")) true None.

(** A property named [contactUrl] of type string with no format *)
Definition contactUrlProperty : PropertyMetadata :=
  mkPropertyMetadata "contactUrl" (stringMetadata None) true None.

(** A stand-in for [parseInt]: the number a string of decimal digits
    writes, NaN for any other string. *)
Definition digitValue (c : ascii) : option Z :=
  let n := Z.of_N (N_of_ascii c) in
  if (48 <=? n) && (n <=? 57) then Some (n - 48) else None.

Fixpoint digitsFrom (acc : Z) (s : string) : option Z :=
  match s with
  | EmptyString => Some acc
  | String c s' =>
      match digitValue c with
      | Some d => digitsFrom (10 * acc + d) s'
      | None => None
      end
  end.

Definition parseDigits (s : string) : option Q :=
  match s with
  | EmptyString => None
  | _ => inject_Z <$> digitsFrom 0 s
  end.

(** [@IsPhoneNumber('US')] and [@Transform(fn)] *)
Definition isPhoneNumber : Decorator :=
  {| dec_getName := "IsPhoneNumber"; dec_getArguments := ["'US'"] |}.
Definition transform : Decorator :=
  {| dec_getName := "Transform"; dec_getArguments := ["fn"] |}.

(** The controllers of the multi-version case of the versioning test. *)
Definition getProfile (fullPath : string) : RouteMetadata :=
  {| route_name := "getProfile"; route_httpMethod := "GET"; route_path := "profile";
     route_fullPath := fullPath; route_isPublic := Some false |}.

Definition adminControllerV1 : ControllerMetadata :=
  {| ctrl_name := "AdminControllerV1"; ctrl_path := "admin";
     ctrl_filePath := "src/api/v1/admin/admin.controller.ts"; ctrl_category := "Admin";
     ctrl_version := Some "v1"; ctrl_routes := [getProfile "/admin/profile"] |}.

Definition adminControllerV2 : ControllerMetadata :=
  {| ctrl_name := "AdminControllerV2"; ctrl_path := "admin";
     ctrl_filePath := "src/api/v2/admin/admin.controller.ts"; ctrl_category := "Admin";
     ctrl_version := Some "v2"; ctrl_routes := [getProfile "/admin/profile"] |}.

Definition apiVersioning : OpenApiGenerator.Versioning :=
  {| OpenApiGenerator.prefix := "/api"; OpenApiGenerator.fallback := "/api/v1" |}.

(** [{ title: 'Test API', version: '1.0' }] *)
Definition minimalOptions : AutoDocsOptions :=
  {| opt_title := Present "Test API"; opt_version := Present "1.0";
     opt_description := Absent; opt_sourcePath := Absent; opt_globalPrefix := Absent;
     opt_docsPath := Absent; opt_specPath := Absent; opt_servers := Absent;
     opt_theme := Absent; opt_categoryMapping := Absent; opt_scanOnStart := Absent;
     opt_watchMode := Absent; opt_exclude := Absent; opt_includeSecurity := Absent;
     opt_securityScheme := Absent; opt_versioning := Absent |}.


(** [{ title: 'Test API', version: '1.0', sourcePath: undefined,
    docsPath: '' }] *)
Definition blankPathOptions : AutoDocsOptions :=
  {| opt_title := Present "Test API"; opt_version := Present "1.0";
     opt_description := Absent; opt_sourcePath := Undefined; opt_globalPrefix := Absent;
     opt_docsPath := Present EmptyString; opt_specPath := Absent; opt_servers := Absent;
     opt_theme := Absent; opt_categoryMapping := Absent; opt_scanOnStart := Absent;
     opt_watchMode := Absent; opt_exclude := Absent; opt_includeSecurity := Absent;
     opt_securityScheme := Absent; opt_versioning := Absent |}.

(** [class Customer { name: string }] and
    [class Invoice { billing: Customer; shipping: Customer }] *)
Definition invoiceGraph : TypeGraph :=
  [ classType "Customer" [ field "name" 1%nat ];
    stringType ].

Definition invoiceClass : ClassDeclaration :=
  {| class_getName := Some "Invoice";
     class_getProperties := [ field "billing" 0%nat; field "shipping" 0%nat ];
     class_getJsDocs := [] |}.

(** [@Module({ controllers: [...], providers: [] }) class name {}] in a
    file of its own *)
Definition moduleFile (path name controllers : string) : SourceFile DecoratedClass :=
  {| file_getFilePath := path;
     file_getClasses :=
       [ {| dclass_getName := Some name;
            dclass_getDecorators :=
              [ {| dec_getName := "Module";
                   dec_getArguments :=
                     [ "{ controllers: [" +:+ controllers +:+ "], providers: [] }" ] |} ] |} ] |}.

Definition adminModuleFile : SourceFile DecoratedClass :=
  moduleFile "admin.module.ts" "AdminModule" "AdminController".

Definition otherModuleFile : SourceFile DecoratedClass :=
  moduleFile "other.module.ts" "OtherModule" "AdminController".

End Samples.

(** ** Vocabulary of the statements *)

Module Props.
Import DtoAnalyzer.

(** A method only ever adds to [visitedTypes]. *)
Definition grows {A} (m : M A) : Prop :=
  ∀ visited a visited', m visited = Some (a, visited') → visited ⊆ visited'.

(** A method returns on every state that extends [v0]. *)
Definition returnsFrom {A} (v0 : Visited) (m : M A) : Prop :=
  ∀ visited, v0 ⊆ visited → ∃ a visited', m visited = Some (a, visited') ∧ visited ⊆ visited'.

(** Whatever [m] returns, [m'] returns too. *)
Definition refines {A} (m m' : M A) : Prop :=
  ∀ visited x, m visited = Some x → m' visited = Some x.

(** The names of the graph that are not in [visitedTypes] yet. *)
Definition unvisited (g : TypeGraph) (visited : Visited) : nat :=
  size (typeNames g ∖ visited).

(** Fuel that suffices for [analyzeType g t depth] on [visited]: every
    expansion of a class takes a name out of [unvisited], and between two
    expansions the depth only goes up to [maxDepth]. *)
Definition fuelFor (g : TypeGraph) (visited : Visited) (depth : Z) : nat :=
  (7 * unvisited g visited + Z.to_nat (maxDepth + 1 - depth) + 1)%nat.

(** The tests of [analyzeType] on the way to its class branch: the base
    type is neither string, number nor boolean, the text of the type does
    not contain [Date], the base type is neither an enum nor a union, and
    it is an object type. *)
Definition reachesClassBranch (typeName : string) (baseType : Type_) : bool :=
  negb (isString baseType) && negb (isNumber baseType) && negb (isBoolean baseType)
  && negb (JsString.includes typeName "Date")
  && negb (isEnum baseType) && negb (isUnion baseType) && isObject baseType.

(** Two resolutions in a row on one analyzer: the second gives the
    descriptor it gives when it is run from the state [visited] that the
    first one started in. *)
Definition secondUnaffected {Root Desc} (resolve : Root → M Desc)
    (first second : Root) (visited : Visited) : Prop :=
  ∀ d1 visited1, resolve first visited = Some (d1, visited1) →
    fst <$> resolve second visited1 = fst <$> resolve second visited.

(** The type of the first property, [n] levels down. *)
Fixpoint descend (n : nat) (tm : TypeMetadata) : option TypeMetadata :=
  match n with
  | O => Some tm
  | S n' =>
      match tm_properties tm with
      | Some (prop :: _) => descend n' (pm_type prop)
      | _ => None
      end
  end.

(** The element type, [n] levels down. *)
Fixpoint element (n : nat) (tm : TypeMetadata) : option TypeMetadata :=
  match n with
  | O => Some tm
  | S n' =>
      match tm_elementType tm with
      | Some e => element n' e
      | None => None
      end
  end.

(** "Missing or empty after trimming white space". *)
Definition blank (value : Field string) : Prop :=
  match value with
  | Present text => JsString.trim text = EmptyString
  | _ => True
  end.

(** What [mergeWithDefaults] leaves at a key with a default: the default
    when the options do not have the key, the options' own entry
    otherwise. *)
Definition defaulted {A} (default : A) (own merged : Field A) : Prop :=
  match own with
  | Absent => merged = Present default
  | _ => merged = own
  end.

(** A method adds nothing to [visitedTypes] but names of [names]. *)
Definition within {A} (names : gset string) (m : M A) : Prop :=
  ∀ visited a visited', m visited = Some (a, visited') → visited' ⊆ visited ∪ names.

(** [required] as [analyzeProperty] computes it. *)
Definition declaredRequired (p : PropertyDeclaration) : bool :=
  negb (prop_hasQuestionToken p) && negb (prop_hasInitializer p).

(** Every class of the files, file by file. *)
Definition allClasses {C} (sourceFiles : list (SourceFile C)) : list C :=
  concat (file_getClasses <$> sourceFiles).

(** A property name that is neither an array index nor [__proto__]. *)
Definition ordinaryKey (key : string) : bool :=
  negb (String.eqb key "__proto__")
  && match JsObject.arrayIndex key with Some _ => false | None => true end.

(** The entry of a property in an object example. *)
Definition exampleEntry (property : PropertyMetadata) : string * JsValue :=
  (pm_name property, ExampleGenerator.generateExample property).

(** The names [extractValidators] keeps: the ones with a case of their
    own, and the ones that start with [Is] or [Validate]. *)
Definition keptValidator (name : string) : bool :=
  existsb (String.eqb name) ValidatorExtractor.recognized
  || JsString.startsWith name "Is" || JsString.startsWith name "Validate".

(** [s] does not start with a slash; [s] does not end with one. *)
Definition headOk (s : string) : bool :=
  match s with
  | String c _ => negb (JsString.isSlash c)
  | EmptyString => true
  end.

Fixpoint lastOk (s : string) : bool :=
  match s with
  | EmptyString => true
  | String c EmptyString => negb (JsString.isSlash c)
  | String _ rest => lastOk rest
  end.

(** A segment as [combinePaths] joins them: not empty and without a slash
    at either end. *)
Definition joinable (s : string) : Prop :=
  s ≠ EmptyString ∧ headOk s = true ∧ lastOk s = true.

(** No colon of [path] stands directly before a word character: [path]
    has no parameter token. *)
Fixpoint noToken (path : string) : bool :=
  match path with
  | EmptyString => true
  | String c rest =>
      negb (Ascii.eqb c ":" && PathUtils.startsWithWordChar rest) && noToken rest
  end.

Fixpoint allDigits (s : string) : bool :=
  match s with
  | EmptyString => true
  | String c rest => PathUtils.isDigit c && allDigits rest
  end.

(** A word of a class name in camel case: a capital letter followed by
    characters that are not capital letters. *)
Fixpoint noCapital (s : string) : bool :=
  match s with
  | EmptyString => true
  | String c rest => negb (ModuleScanner.isCapital c) && noCapital rest
  end.

Definition capitalizedWord (w : string) : bool :=
  match w with
  | String c rest => ModuleScanner.isCapital c && noCapital rest
  | EmptyString => false
  end.

(** The words written one after the other. *)
Definition camelCase (words : list string) : string := fold_right String.append EmptyString words.

(** A name as it stands in a [controllers] array: not empty, and without
    comma, closing bracket, slash or white space. *)
Definition plainChar (c : ascii) : bool :=
  negb (Ascii.eqb c "," || Ascii.eqb c "]" || Ascii.eqb c "/" || JsString.isWhiteSpace c).

Fixpoint allPlain (s : string) : bool :=
  match s with
  | EmptyString => true
  | String c rest => plainChar c && allPlain rest
  end.

Definition plainName (n : string) : bool :=
  match n with
  | EmptyString => false
  | _ => allPlain n
  end.

(** The names separated by a comma and a space. *)
Fixpoint commaSeparated (names : list string) : string :=
  match names with
  | [] => EmptyString
  | [n] => n
  | n :: rest => n +:+ ", " +:+ commaSeparated rest
  end.

(** Every module of the files, file by file. *)
Definition allModules (sourceFiles : list (SourceFile DecoratedClass)) : list ModuleInfo :=
  concat (ModuleScanner.extractModulesFromFile <$> sourceFiles).

End Props.
Import Props.

(** ** Facts about the resolver *)

Import DtoAnalyzer.

Section DtoAnalyzerFacts.

Implicit Types (g : TypeGraph) (t : TypeId) (visited : Visited).

Lemma mapM_grows {A B} (f : A → M B) (xs : list A) :
  (∀ x, grows (f x)) → grows (mapM f xs).
Proof.
  intros Hf. induction xs as [|x rest IH]; intros v ys v' Hrun; cbn in Hrun.
  - unfold ret in Hrun. by simplify_eq.
  - unfold bind, ret in Hrun.
    destruct (f x v) as [[y v1]|] eqn:Hx; [|done].
    destruct (mapM f rest v1) as [[zs v2]|] eqn:Hrest; [|done].
    simplify_eq. apply Hf in Hx. apply IH in Hrest. set_solver.
Qed.

(** Each element of the result of [mapM] comes from the element at the
    same place, run in a state that extends the initial one. *)
Lemma mapM_lookup {A B} (f : A → M B) (xs : list A) :
  (∀ x, grows (f x)) →
  ∀ v ys v', mapM f xs v = Some (ys, v') →
    length ys = length xs ∧
    ∀ i x y, xs !! i = Some x → ys !! i = Some y →
      ∃ va vb, v ⊆ va ∧ f x va = Some (y, vb).
Proof.
  intros Hf. induction xs as [|x rest IH]; intros v ys v' Hrun; cbn in Hrun.
  - unfold ret in Hrun. simplify_eq. split; [done|]. intros i x y Hx. by destruct i.
  - unfold bind, ret in Hrun.
    destruct (f x v) as [[y v1]|] eqn:Hx; [|done].
    destruct (mapM f rest v1) as [[zs v2]|] eqn:Hrest; [|done].
    simplify_eq. destruct (IH _ _ _ Hrest) as [Hlen Hall]. split; [cbn; by rewrite Hlen|].
    intros [|i] x' y' Hx' Hy'; cbn in Hx', Hy'; simplify_eq.
    + exists v, v1. done.
    + destruct (Hall _ _ _ Hx' Hy') as (va & vb & Hsub & Hrun).
      exists va, vb. split; [|done]. apply Hf in Hx. set_solver.
Qed.

Lemma mapM_returns {A B} (f : A → M B) (xs : list A) v0 :
  (∀ x, returnsFrom v0 (f x)) → returnsFrom v0 (mapM f xs).
Proof.
  intros Hf. induction xs as [|x rest IH]; intros v Hv; cbn.
  - exists [], v. done.
  - unfold bind, ret. destruct (Hf x v Hv) as (y & v1 & Hy & Hsub). rewrite Hy.
    destruct (IH v1) as (ys & v2 & Hys & Hsub2); [set_solver|]. rewrite Hys.
    exists (y :: ys), v2. split; [done|set_solver].
Qed.

Lemma analyzePropertyWith_grows analyze p :
  (∀ t depth, grows (analyze t depth)) → grows (analyzePropertyWith analyze p).
Proof.
  intros Ha v pm v' Hrun. unfold analyzePropertyWith, bind, ret in Hrun.
  destruct (analyze (prop_getType p) 0 v) as [[ty v1]|] eqn:Hty; [|done].
  simplify_eq. by eapply Ha.
Qed.

Lemma analyzeElementWith_grows analyze isArr baseId depth :
  (∀ t d, grows (analyze t d)) → grows (analyzeElementWith analyze isArr baseId depth).
Proof.
  intros Ha v el v' Hrun. unfold analyzeElementWith, bind, ret in Hrun.
  destruct isArr; [|by simplify_eq].
  destruct (analyze baseId (depth + 1) v) as [[e v1]|] eqn:He; [|done].
  simplify_eq. by eapply Ha.
Qed.

Lemma analyzeType_grows fuel g : ∀ t depth, grows (analyzeType fuel g t depth).
Proof.
  induction fuel as [|fuel IH]; intros t depth v r v' Hrun; [done|].
  cbn [analyzeType] in Hrun. unfold analyzeTypeWith in Hrun.
  destruct (maxDepth <? depth); [unfold ret in Hrun; by simplify_eq|].
  destruct (decide (getText (node g t) ∈ v)); [unfold ret in Hrun; by simplify_eq|].
  unfold bind at 1 in Hrun.
  destruct (analyzeElementWith _ _ _ _ v) as [[el v1]|] eqn:Hel; [|done].
  apply analyzeElementWith_grows in Hel; [|done].
  unfold ret in Hrun.
  repeat (match type of Hrun with
          | (if ?b then _ else _) _ = _ => destruct b
          | (if ?b then _ else _) = _ => destruct b
          end; try (simplify_eq; done)).
  destruct (classProperties _) as [properties|]; [|simplify_eq; set_solver].
  unfold bind in Hrun.
  destruct (mapM _ properties _) as [[props v2]|] eqn:Hprops; [|done].
  simplify_eq.
  apply mapM_grows in Hprops; [set_solver|].
  intros p. apply analyzePropertyWith_grows. apply IH.
Qed.

(** *** Termination *)

Lemma getText_node_typeNames g t : getText (node g t) ∈ typeNames g.
Proof.
  unfold typeNames, node. destruct (g !! t) as [ty|] eqn:Hty; [|set_solver].
  apply elem_of_union_r, elem_of_list_to_set, list_elem_of_fmap.
  exists ty. split; [done|]. by eapply list_elem_of_lookup_2.
Qed.

Lemma unvisited_mono g v v' : v ⊆ v' → (unvisited g v' ≤ unvisited g v)%nat.
Proof. intros Hsub. apply subseteq_size. set_solver. Qed.

Lemma unvisited_add g v v' name :
  name ∈ typeNames g → name ∉ v → {[ name ]} ∪ v ⊆ v' →
  (unvisited g v' < unvisited g v)%nat.
Proof.
  intros Hin Hnot Hsub. apply subset_size. split; [set_solver|].
  intros Hcontra. specialize (Hcontra name). set_solver.
Qed.

Lemma analyzeType_returns g :
  ∀ fuel t depth visited, (fuelFor g visited depth ≤ fuel)%nat →
    ∃ r visited', analyzeType fuel g t depth visited = Some (r, visited') ∧ visited ⊆ visited'.
Proof.
  induction fuel as [|fuel IH]; intros t depth v Hfuel; [unfold fuelFor in Hfuel; lia|].
  cbn [analyzeType]. unfold analyzeTypeWith.
  destruct (maxDepth <? depth) eqn:Hdepth; [by exists unknownType, v|].
  apply Z.ltb_ge in Hdepth.
  destruct (decide (getText (node g t) ∈ v)) as [|Hnew]; [by eexists _, v|].
  unfold bind at 1.
  assert (∃ el v1, analyzeElementWith (analyzeType fuel g) (isArray (node g t))
                     (baseTypeId g t) depth v = Some (el, v1) ∧ v ⊆ v1)
    as (el & v1 & -> & Hsub1).
  { unfold analyzeElementWith, bind, ret. destruct (isArray (node g t)); [|by exists None, v].
    destruct (IH (baseTypeId g t) (depth + 1) v) as (e & v1 & -> & Hsub1).
    - unfold fuelFor in *. lia.
    - by exists (Some e), v1. }
  unfold ret.
  repeat (match goal with
          | |- ∃ _ _, (if ?b then _ else _) _ = _ ∧ _ => destruct b
          | |- ∃ _ _, (if ?b then _ else _) = _ ∧ _ => destruct b
          end; try (by eexists _, v1)).
  destruct (classProperties _) as [properties|]; [|eexists _, _; split; [done|set_solver]].
  unfold bind.
  destruct (mapM_returns (analyzePropertyWith (analyzeType fuel g)) properties
              ({[ getText (node g t) ]} ∪ v1)) with (visited := {[ getText (node g t) ]} ∪ v1)
    as (props & v2 & -> & Hsub2); [|done|].
  - intros p w Hw. unfold analyzePropertyWith, bind, ret.
    destruct (IH (prop_getType p) 0 w) as (ty & w' & -> & Hsubw).
    + assert (unvisited g w < unvisited g v)%nat as Hlt.
      { apply (unvisited_add g v w (getText (node g t))); [|done|set_solver].
        apply getText_node_typeNames. }
      unfold fuelFor, maxDepth in *. lia.
    + by eexists _, w'.
  - eexists _, v2. split; [done|set_solver].
Qed.

(** *** More fuel does not change a result *)

Lemma mapM_refines {A B} (f f' : A → M B) (xs : list A) :
  (∀ x, refines (f x) (f' x)) → refines (mapM f xs) (mapM f' xs).
Proof.
  intros Hf. induction xs as [|x rest IH]; intros v r Hrun; cbn in *; [done|].
  unfold bind, ret in *.
  destruct (f x v) as [[y v1]|] eqn:Hx; [|done]. rewrite (Hf _ _ _ Hx).
  destruct (mapM f rest v1) as [[ys v2]|] eqn:Hrest; [|done]. by rewrite (IH _ _ Hrest).
Qed.

Lemma analyzePropertyWith_refines self self' p :
  (∀ t depth, refines (self t depth) (self' t depth)) →
  refines (analyzePropertyWith self p) (analyzePropertyWith self' p).
Proof.
  intros Hself v r Hrun. unfold analyzePropertyWith, bind, ret in *.
  destruct (self (prop_getType p) 0 v) as [[ty v1]|] eqn:Hty; [|done].
  by rewrite (Hself _ _ _ _ Hty).
Qed.

Lemma analyzeElementWith_refines self self' isArr baseId depth :
  (∀ t d, refines (self t d) (self' t d)) →
  refines (analyzeElementWith self isArr baseId depth)
    (analyzeElementWith self' isArr baseId depth).
Proof.
  intros Hself v r Hrun. unfold analyzeElementWith, bind, ret in *.
  destruct isArr; [|done].
  destruct (self baseId (depth + 1) v) as [[e v1]|] eqn:He; [|done].
  by rewrite (Hself _ _ _ _ He).
Qed.

Lemma analyzeTypeWith_refines self self' g t depth :
  (∀ t d, refines (self t d) (self' t d)) →
  refines (analyzeTypeWith self g t depth) (analyzeTypeWith self' g t depth).
Proof.
  intros Hself v r Hrun. unfold analyzeTypeWith in *.
  destruct (maxDepth <? depth); [done|].
  destruct (decide (getText (node g t) ∈ v)); [done|].
  unfold bind at 1 in Hrun. unfold bind at 1.
  destruct (analyzeElementWith self _ _ _ v) as [[el v1]|] eqn:Hel; [|done].
  rewrite (analyzeElementWith_refines _ _ _ _ _ Hself _ _ Hel).
  repeat (match type of Hrun with
          | (if ?b then _ else _) _ = _ => destruct b
          | (if ?b then _ else _) = _ => destruct b
          end; try done).
  destruct (classProperties _) as [properties|]; [|done].
  unfold bind in *.
  destruct (mapM (analyzePropertyWith self) properties _) as [[props v2]|] eqn:Hprops; [|done].
  rewrite (mapM_refines _ (analyzePropertyWith self') _
             (λ p, analyzePropertyWith_refines _ _ p Hself) _ _ Hprops).
  done.
Qed.

Lemma analyzeType_more_fuel g fuel fuel' :
  (fuel ≤ fuel')%nat → ∀ t depth, refines (analyzeType fuel g t depth) (analyzeType fuel' g t depth).
Proof.
  revert fuel'. induction fuel as [|fuel IH]; intros fuel' Hle t depth; [by intros v r|].
  destruct fuel' as [|fuel']; [lia|]. cbn [analyzeType].
  apply analyzeTypeWith_refines. intros u d. apply IH. lia.
Qed.

Lemma analyzeProperty_more_fuel g fuel fuel' :
  (fuel ≤ fuel')%nat → ∀ p, refines (analyzeProperty fuel g p) (analyzeProperty fuel' g p).
Proof.
  intros Hle p. apply analyzePropertyWith_refines. by apply analyzeType_more_fuel.
Qed.

Lemma analyzeDto_more_fuel g fuel fuel' :
  (fuel ≤ fuel')%nat → ∀ c, refines (analyzeDto fuel g c) (analyzeDto fuel' g c).
Proof.
  intros Hle c v r Hrun. unfold analyzeDto, bind, ret in *.
  destruct (mapM (analyzeProperty fuel g) _ ∅) as [[props v1]|] eqn:Hprops; [|done].
  by rewrite (mapM_refines _ _ _ (analyzeProperty_more_fuel g _ _ Hle) _ _ Hprops).
Qed.

(** *** What the resolver returns *)

(** A type whose name is in [visitedTypes] resolves to the bare reference. *)
Lemma analyzeType_visited fuel g t depth visited :
  depth ≤ maxDepth → getText (node g t) ∈ visited →
  analyzeType (S fuel) g t depth visited
  = Some (visitedReference (getText (node g t)), visited).
Proof.
  intros Hdepth Hin. cbn [analyzeType]. unfold analyzeTypeWith.
  destruct (maxDepth <? depth) eqn:Hlt; [apply Z.ltb_lt in Hlt; lia|].
  by destruct (decide (getText (node g t) ∈ visited)).
Qed.

(** A descriptor with [properties] comes from the class branch: the
    properties are those of the class of the base type, analyzed in order
    once the name of the type is in [visitedTypes]. *)
Lemma analyzeType_properties fuel g t depth visited r visited' props :
  analyzeType (S fuel) g t depth visited = Some (r, visited') →
  tm_properties r = Some props →
  ∃ declared visited1,
    classProperties (node g (baseTypeId g t)) = Some declared ∧
    visited ⊆ visited1 ∧
    mapM (analyzePropertyWith (analyzeType fuel g)) declared
      ({[ getText (node g t) ]} ∪ visited1) = Some (props, visited').
Proof.
  intros Hrun Hprops. cbn [analyzeType] in Hrun. unfold analyzeTypeWith in Hrun.
  destruct (maxDepth <? depth); [unfold ret in Hrun; by simplify_eq|].
  destruct (decide (getText (node g t) ∈ visited)); [unfold ret in Hrun; by simplify_eq|].
  unfold bind at 1 in Hrun.
  destruct (analyzeElementWith _ _ _ _ visited) as [[el v1]|] eqn:Hel; [|done].
  apply analyzeElementWith_grows in Hel; [|apply analyzeType_grows].
  unfold ret in Hrun.
  repeat (match type of Hrun with
          | (if ?b then _ else _) _ = _ => destruct b
          | (if ?b then _ else _) = _ => destruct b
          end; try (by simplify_eq)).
  destruct (classProperties _) as [declared|]; [|by simplify_eq].
  unfold bind in Hrun.
  destruct (mapM _ declared _) as [[ps v2]|] eqn:Hmap; [|done].
  simplify_eq. cbn in Hprops. simplify_eq. by exists declared, v1.
Qed.

Lemma mapM_fmap {A B C} (f : A → M B) (h : B → C) (k : A → C) (xs : list A) :
  (∀ x v y v', f x v = Some (y, v') → h y = k x) →
  ∀ v ys v', mapM f xs v = Some (ys, v') → h <$> ys = k <$> xs.
Proof.
  intros Hf. induction xs as [|x rest IH]; intros v ys v' Hrun; cbn in Hrun.
  - unfold ret in Hrun. by simplify_eq.
  - unfold bind, ret in Hrun.
    destruct (f x v) as [[y v1]|] eqn:Hx; [|done].
    destruct (mapM f rest v1) as [[zs v2]|] eqn:Hrest; [|done].
    simplify_eq. cbn. f_equal; [by eapply Hf|by eapply IH].
Qed.

(** A class type whose name is not in [visitedTypes] is expanded: the
    descriptor has [properties], which are the declared properties
    analyzed in order once the name of the type is in [visitedTypes]. *)
Lemma analyzeType_class fuel g t depth visited declared r visited' :
  depth ≤ maxDepth → getText (node g t) ∉ visited →
  reachesClassBranch (getText (node g t)) (node g (baseTypeId g t)) = true →
  classProperties (node g (baseTypeId g t)) = Some declared →
  analyzeType (S fuel) g t depth visited = Some (r, visited') →
  ∃ props visited1,
    tm_properties r = Some props ∧
    tm_type r = getText (node g (baseTypeId g t)) ∧
    visited ⊆ visited1 ∧
    mapM (analyzePropertyWith (analyzeType fuel g)) declared
      ({[ getText (node g t) ]} ∪ visited1) = Some (props, visited').
Proof.
  intros Hdepth Hnew Hclass Hdeclared Hrun.
  cbn [analyzeType] in Hrun. unfold analyzeTypeWith in Hrun.
  destruct (maxDepth <? depth) eqn:Hlt; [apply Z.ltb_lt in Hlt; lia|].
  destruct (decide (getText (node g t) ∈ visited)); [done|].
  unfold bind at 1 in Hrun.
  destruct (analyzeElementWith _ _ _ _ visited) as [[el v1]|] eqn:Hel; [|done].
  apply analyzeElementWith_grows in Hel; [|apply analyzeType_grows].
  unfold reachesClassBranch in Hclass.
  repeat (apply andb_true_iff in Hclass as [Hclass ?]).
  repeat match goal with H : negb _ = true |- _ => apply negb_true_iff in H end.
  repeat match goal with H : _ = false |- _ => rewrite H in Hrun end.
  match goal with H : isObject _ = true |- _ => rewrite H in Hrun end.
  rewrite Hdeclared in Hrun. unfold bind, ret in Hrun.
  destruct (mapM _ declared _) as [[ps v2]|] eqn:Hmap; [|done].
  simplify_eq. by exists ps, v1.
Qed.

Lemma analyzeProperty_returns g p visited :
  ∃ pm visited',
    analyzeProperty (fuelFor g ∅ 0) g p visited = Some (pm, visited') ∧
    pm_name pm = prop_getName p ∧
    pm_required pm = negb (prop_hasQuestionToken p) && negb (prop_hasInitializer p).
Proof.
  unfold analyzeProperty, analyzePropertyWith, bind, ret.
  destruct (analyzeType_returns g (fuelFor g ∅ 0) (prop_getType p) 0 visited)
    as (ty & v' & Hty & _).
  - pose proof (unvisited_mono g ∅ visited) as Hle. unfold fuelFor.
    assert (unvisited g visited ≤ unvisited g ∅)%nat by (apply Hle; set_solver). lia.
  - rewrite Hty. by eexists _, _.
Qed.

End DtoAnalyzerFacts.

(** ** The type resolver: cycles, depth and state *)

(** C1: on every type graph [analyzeType] returns (from some amount of fuel
    on, always the same result). When the type is a class whose name is not
    in [visitedTypes] yet, the descriptor has one property per declared
    property, under the declared names, and each property whose type is
    the type being resolved itself is the bare reference: the name of the
    type, no properties and no element type. *)
Theorem analyzeType_self_reference (g : TypeGraph) (t : TypeId) (depth : Z) (visited : Visited) :
  ∃ fuel r visited',
    (∀ fuel', (fuel ≤ fuel')%nat →
       analyzeType fuel' g t depth visited = Some (r, visited')) ∧
    ∀ declared,
      depth ≤ maxDepth → getText (node g t) ∉ visited →
      reachesClassBranch (getText (node g t)) (node g (baseTypeId g t)) = true →
      classProperties (node g (baseTypeId g t)) = Some declared →
      ∃ props,
        tm_properties r = Some props ∧
        pm_name <$> props = prop_getName <$> declared ∧
        ∀ i p, declared !! i = Some p → prop_getType p = t →
          ∃ pm, props !! i = Some pm ∧
            pm_name pm = prop_getName p ∧
            pm_type pm = visitedReference (getText (node g t)) ∧
            tm_type (pm_type pm) = getText (node g t) ∧
            tm_properties (pm_type pm) = None ∧
            tm_elementType (pm_type pm) = None.
Proof.
  destruct (analyzeType_returns g (fuelFor g visited depth) t depth visited)
    as (r & v' & Hrun & _); [done|].
  exists (fuelFor g visited depth), r, v'.
  split; [intros fuel' Hle; by apply (analyzeType_more_fuel g _ _ Hle) in Hrun|].
  intros declared Hdepth Hnew Hclass Hdeclared.
  unfold fuelFor in Hrun. rewrite Nat.add_1_r in Hrun.
  destruct (analyzeType_class _ _ _ _ _ _ _ _ Hdepth Hnew Hclass Hdeclared Hrun)
    as (props & v1 & Hprops & _ & Hsub & Hmap).
  exists props. split; [done|].
  assert (pm_name <$> props = prop_getName <$> declared) as Hnames.
  { eapply mapM_fmap; [|exact Hmap].
    intros p v pm w Hp. unfold analyzePropertyWith, bind, ret in Hp.
    destruct (analyzeType _ g _ 0 v) as [[ty w1]|]; [|done]. by simplify_eq. }
  split; [done|].
  apply mapM_lookup in Hmap as [Hlen Hall];
    [|intros p; apply analyzePropertyWith_grows, analyzeType_grows].
  intros i p Hp Hself.
  destruct (lookup_lt_is_Some_2 props i) as [pm Hpm];
    [rewrite Hlen; by eapply lookup_lt_Some|].
  exists pm. split; [done|].
  destruct (Hall i p pm Hp Hpm) as (va & vb & Hva & Hone).
  unfold analyzePropertyWith, bind, ret in Hone. rewrite Hself in Hone.
  destruct (_ + _)%nat as [|fuel] in Hone; [done|].
  rewrite analyzeType_visited in Hone; [|unfold maxDepth; lia|set_solver].
  by simplify_eq.
Qed.

Lemma analyzeType_self_reference_witness :
  ∃ fuel r visited',
    (∀ fuel', (fuel ≤ fuel')%nat →
       analyzeType fuel' Samples.selfGraph 0%nat 0 ∅ = Some (r, visited')) ∧
    ∃ props manager,
      tm_properties r = Some props ∧
      pm_name <$> props = ["name"; "manager"] ∧
      props !! 1%nat = Some manager ∧
      pm_name manager = "manager" ∧
      pm_type manager = visitedReference "Employee" ∧
      tm_properties (pm_type manager) = None ∧
      tm_elementType (pm_type manager) = None.
Proof.
  destruct (analyzeType_self_reference Samples.selfGraph 0%nat 0 ∅)
    as (fuel & r & visited' & Hrun & Hclass).
  exists fuel, r, visited'. split; [exact Hrun|].
  destruct (Hclass [Samples.field "name" 1%nat; Samples.field "manager" 0%nat])
    as (props & Hprops & Hnames & Hself);
    [unfold maxDepth; lia | apply not_elem_of_empty | reflexivity | reflexivity |].
  destruct (Hself 1%nat (Samples.field "manager" 0%nat) eq_refl eq_refl)
    as (manager & Hmanager & Hname & Htype & _ & Hnone & Helement).
  exists props, manager. by repeat split.
Defined.

(** [Employee] resolved on a new analyzer: [manager] is the reference. *)
Example analyzeType_employee :
  fst <$> analyzeType 3 Samples.selfGraph 0%nat 0 ∅
  = Some (mkTypeMetadata "Employee" false false false false None
            (Some [ mkPropertyMetadata "name" (Samples.stringMetadata None) true None;
                    mkPropertyMetadata "manager" (visitedReference "Employee") true None ])
            None None None).
Proof. vm_compute. reflexivity. Qed.

(** C2, at a chain of eight nested classes: [analyzeProperty] resolves the
    type of a property at depth 0 again, so the chain is expanded to its
    end and no level of it is [unknown]. *)
Theorem analyzeType_chain_not_cut :
  ∃ r visited',
    analyzeType 10 Samples.chainGraph 0%nat 0 ∅ = Some (r, visited') ∧
    tm_type <$> descend 5 r = Some "Level5" ∧
    tm_type <$> descend 6 r = Some "Level6" ∧
    tm_type <$> descend 7 r = Some "Level7" ∧
    tm_type <$> descend 8 r = Some "string" ∧
    ∀ n d, descend n r = Some d → d ≠ unknownType.
Proof.
  destruct (analyzeType 10 Samples.chainGraph 0%nat 0 ∅) as [[r v']|] eqn:Hrun;
    [|vm_compute in Hrun; discriminate].
  exists r, v'. split; [done|].
  vm_compute in Hrun. injection Hrun as <- _.
  repeat split; try reflexivity.
  intros n d Hd.
  do 9 (destruct n as [|n]; [vm_compute in Hd; injection Hd as <-; discriminate|]).
  vm_compute in Hd. discriminate.
Qed.

(** The sibling path: element types of nested arrays are resolved at
    [depth + 1], and the seventh level is [unknown]. *)
Lemma analyzeType_nested_array_cut :
  ∃ r visited',
    analyzeType 10 Samples.nestedArrayGraph 0%nat 0 ∅ = Some (r, visited') ∧
    tm_type <$> element 5 r = Some "string[][]" ∧
    element 6 r = Some unknownType ∧
    element 7 r = None.
Proof.
  destruct (analyzeType 10 Samples.nestedArrayGraph 0%nat 0 ∅) as [[r v']|] eqn:Hrun;
    [|vm_compute in Hrun; discriminate].
  exists r, v'. split; [done|].
  vm_compute in Hrun. injection Hrun as <- _. repeat split; reflexivity.
Qed.

(** C3, on one analyzer: [analyzeType] is called on [Order] and then on
    [Customer]. The first call leaves [Order] and [Customer] in
    [visitedTypes], nothing clears the set, and the second call returns the
    bare reference kept for circular references, although [Customer] is no
    part of a cycle; on a new analyzer the same call returns the descriptor
    of [Customer] with its property [name]. The second resolution is not
    what it is without the first. *)
Theorem analyzeType_second_call_affected :
  let visited1 : Visited := {[ "Order"; "Customer" ]} in
  analyzeType 10 Samples.orderGraph 0%nat 0 ∅
  = Some (Samples.orderDescriptor, visited1) ∧
  analyzeType 10 Samples.orderGraph 1%nat 0 visited1
  = Some (visitedReference "Customer", visited1) ∧
  analyzeType 10 Samples.orderGraph 1%nat 0 ∅
  = Some (Samples.customerDescriptor, {[ "Customer" ]}) ∧
  tm_properties (visitedReference "Customer") = None ∧
  fmap (M := list) pm_name <$> tm_properties Samples.customerDescriptor = Some ["name"] ∧
  visitedReference "Customer" ≠ Samples.customerDescriptor ∧
  ¬ secondUnaffected (λ t, analyzeType 10 Samples.orderGraph t 0) 0%nat 1%nat ∅.
Proof.
  intros visited1.
  assert (analyzeType 10 Samples.orderGraph 0%nat 0 ∅
          = Some (Samples.orderDescriptor, visited1)) as Hfirst by (vm_compute; reflexivity).
  split; [exact Hfirst|].
  split; [vm_compute; reflexivity|].
  split; [vm_compute; reflexivity|].
  split; [reflexivity|]. split; [reflexivity|]. split; [discriminate|].
  intros Hclaim. specialize (Hclaim _ _ Hfirst).
  vm_compute in Hclaim. discriminate.
Qed.

(** The sibling entry: [analyzeDto] clears [visitedTypes] when it starts
    ("Reset visited types for each DTO"). Two calls of [analyzeDto] in a
    row both return, and the second returns what it returns without the
    first. *)
Theorem analyzeDto_second_call_unaffected (g : TypeGraph)
    (first second : ClassDeclaration) (visited : Visited) :
  (∀ fuel, secondUnaffected (analyzeDto fuel g) first second visited) ∧
  ∃ fuel d1 visited1 d2 visited2,
    ∀ fuel', (fuel ≤ fuel')%nat →
      analyzeDto fuel' g first visited = Some (d1, visited1) ∧
      analyzeDto fuel' g second visited1 = Some (d2, visited2) ∧
      analyzeDto fuel' g second visited = Some (d2, visited2).
Proof.
  split; [by intros fuel d1 v1 _|].
  assert (∀ c v, ∃ d v', analyzeDto (fuelFor g ∅ 0) g c v = Some (d, v')) as Hdto.
  { intros c v. unfold analyzeDto, bind, ret.
    destruct (mapM_returns (analyzeProperty (fuelFor g ∅ 0) g) (class_getProperties c) ∅)
      with (visited := (∅ : Visited)) as (props & v' & Hprops & _); [|done|].
    - intros p w _. destruct (analyzeProperty_returns g p w) as (pm & w' & Hpm & _).
      exists pm, w'. split; [done|]. eapply analyzePropertyWith_grows, Hpm.
      apply analyzeType_grows.
    - rewrite Hprops. by eexists _, _. }
  destruct (Hdto first visited) as (d1 & v1 & H1).
  destruct (Hdto second v1) as (d2 & v2 & H2).
  exists (fuelFor g ∅ 0), d1, v1, d2, v2. intros fuel' Hle.
  apply (analyzeDto_more_fuel g _ _ Hle) in H1, H2. done.
Qed.

Lemma analyzeDto_second_call_unaffected_witness :
  let order := {| class_getName := Some "Order";
                  class_getProperties := [Samples.field "customer" 1%nat];
                  class_getJsDocs := [] |} in
  let customer := {| class_getName := Some "Customer";
                     class_getProperties := [Samples.field "name" 2%nat];
                     class_getJsDocs := [] |} in
  (∀ fuel, secondUnaffected (analyzeDto fuel Samples.orderGraph) order customer ∅) ∧
  ∃ fuel d1 visited1 d2 visited2,
    ∀ fuel', (fuel ≤ fuel')%nat →
      analyzeDto fuel' Samples.orderGraph order ∅ = Some (d1, visited1) ∧
      analyzeDto fuel' Samples.orderGraph customer visited1 = Some (d2, visited2) ∧
      analyzeDto fuel' Samples.orderGraph customer ∅ = Some (d2, visited2).
Proof. intros order customer. exact (analyzeDto_second_call_unaffected _ order customer ∅). Defined.

(** C10: [analyzeProperty] returns (from some amount of fuel on, always the
    same result), and [required] is true exactly when the
    property has neither a question token nor an initializer; a property
    with an initializer is not required. *)
Theorem analyzeProperty_required (g : TypeGraph) (p : PropertyDeclaration) (visited : Visited) :
  ∃ fuel pm visited',
    (∀ fuel', (fuel ≤ fuel')%nat →
       analyzeProperty fuel' g p visited = Some (pm, visited')) ∧
    (pm_required pm = true ↔
       prop_hasQuestionToken p = false ∧ prop_hasInitializer p = false) ∧
    (prop_hasInitializer p = true → pm_required pm = false).
Proof.
  destruct (analyzeProperty_returns g p visited) as (pm & v' & Hrun & _ & Hreq).
  exists (fuelFor g ∅ 0), pm, v'.
  split; [intros fuel' Hle; by apply (analyzeProperty_more_fuel g _ _ Hle) in Hrun|].
  rewrite Hreq.
  destruct (prop_hasQuestionToken p), (prop_hasInitializer p); cbn; intuition congruence.
Qed.

Lemma analyzeProperty_required_witness :
  ∃ fuel pm visited',
    (∀ fuel', (fuel ≤ fuel')%nat →
       analyzeProperty fuel' Samples.countGraph Samples.countProperty ∅
       = Some (pm, visited')) ∧
    (pm_required pm = true ↔
       prop_hasQuestionToken Samples.countProperty = false ∧
       prop_hasInitializer Samples.countProperty = false) ∧
    (prop_hasInitializer Samples.countProperty = true → pm_required pm = false).
Proof. exact (analyzeProperty_required _ Samples.countProperty ∅). Defined.

(** ** Validation annotations *)

(** C7: a decorator whose name has no case of its own maps to the
    descriptor with its name and empty constraints when the name starts
    with [Is] or [Validate], and to nothing otherwise; the mapping is a
    total function, so nothing is raised. *)
Theorem mapValidatorDecorator_unrecognized (parseInt : string → option Q) (decorator : Decorator) :
  dec_getName decorator ∉ ValidatorExtractor.recognized →
  ValidatorExtractor.mapValidatorDecorator parseInt decorator
  = (if JsString.startsWith (dec_getName decorator) "Is"
        || JsString.startsWith (dec_getName decorator) "Validate"
     then Some {| vm_name := dec_getName decorator; vm_args := None; vm_constraints := [] |}
     else None).
Proof.
  intros Hnot. unfold ValidatorExtractor.mapValidatorDecorator. cbv zeta.
  set (name := dec_getName decorator) in *.
  assert (∀ c, c ∈ ValidatorExtractor.recognized → String.eqb name c = false) as Hother.
  { intros c Hc. apply String.eqb_neq. by intros <-. }
  repeat match goal with
         | |- context [String.eqb name ?c] =>
             rewrite (Hother c) by (unfold ValidatorExtractor.recognized; set_solver)
         end.
  reflexivity.
Qed.

Lemma mapValidatorDecorator_unrecognized_witness :
  (dec_getName Samples.isPhoneNumber ∉ ValidatorExtractor.recognized) ∧
  ValidatorExtractor.mapValidatorDecorator Samples.parseDigits Samples.isPhoneNumber
  = (if JsString.startsWith (dec_getName Samples.isPhoneNumber) "Is"
        || JsString.startsWith (dec_getName Samples.isPhoneNumber) "Validate"
     then Some {| vm_name := dec_getName Samples.isPhoneNumber; vm_args := None;
                  vm_constraints := [] |}
     else None).
Proof.
  assert (dec_getName Samples.isPhoneNumber ∉ ValidatorExtractor.recognized) as Hnot.
  { apply (bool_decide_unpack _). vm_compute. exact I. }
  split; [exact Hnot|].
  exact (mapValidatorDecorator_unrecognized Samples.parseDigits Samples.isPhoneNumber Hnot).
Defined.

(** The names of [recognized] are the ones with a case of their own: each
    maps to a descriptor that carries it. *)
Lemma mapValidatorDecorator_recognized (parseInt : string → option Q) (decorator : Decorator) :
  dec_getName decorator ∈ ValidatorExtractor.recognized →
  ∃ validator,
    ValidatorExtractor.mapValidatorDecorator parseInt decorator = Some validator ∧
    vm_name validator = dec_getName decorator.
Proof.
  destruct decorator as [name args]. cbn [dec_getName]. intros Hin.
  unfold ValidatorExtractor.recognized in Hin.
  repeat (apply elem_of_cons in Hin as [->|Hin];
          [cbn; try destruct (args !! 0%nat); by eexists|]).
  by apply elem_of_nil in Hin.
Qed.

(** The two outcomes, on [@IsPhoneNumber('US')] and on [@Transform(fn)]. *)
Example mapValidatorDecorator_samples :
  ValidatorExtractor.mapValidatorDecorator Samples.parseDigits Samples.isPhoneNumber
  = Some {| vm_name := "IsPhoneNumber"; vm_args := None; vm_constraints := [] |} ∧
  ValidatorExtractor.mapValidatorDecorator Samples.parseDigits Samples.transform = None.
Proof. split; reflexivity. Qed.

(** ** Examples *)

Lemma generateFromType_primitive (tm : TypeMetadata) (fieldName : option string) :
  tm_isPrimitive tm = true →
  ExampleGenerator.generateFromType tm fieldName
  = ExampleGenerator.generatePrimitiveExample tm fieldName.
Proof. intros Hprim. destruct tm. cbn in *. by rewrite Hprim. Qed.

(** An array that is not marked primitive gives a one-element array. *)
Lemma generateFromType_array (tm elementType : TypeMetadata) (fieldName : option string) :
  tm_isPrimitive tm = false → tm_isArray tm = true → tm_elementType tm = Some elementType →
  ExampleGenerator.generateFromType tm fieldName
  = JArr [ExampleGenerator.generateFromType elementType None].
Proof. intros Hprim Harr Hel. destruct tm. cbn in *. by rewrite Hprim, Harr, Hel. Qed.

(** C8, as stated, fails: a property named [email] whose format is [uri]
    does not get the email example. *)
Lemma generateExample_email_uri_not_email :
  ExampleGenerator.generateExample Samples.emailUriProperty ≠ JStr "user@example.com".
Proof. vm_compute. discriminate. Qed.

(** C8, amended: a primitive property whose declared format is [uri] gets
    the URI example whatever its name, [email] included, and a primitive
    string property named [contactUrl] without a format gets the same
    example from its name. *)
Theorem generateExample_precedence :
  (∀ property,
     tm_isPrimitive (pm_type property) = true →
     tm_format (pm_type property) = Some "uri" →
     ExampleGenerator.generateExample property = JStr "https://example.com") ∧
  (∀ type,
     tm_isPrimitive type = true → tm_format type = None →
     ExampleGenerator.generateExample (mkPropertyMetadata "contactUrl" type true None)
     = JStr "https://example.com") ∧
  ExampleGenerator.generateExample Samples.emailUriProperty = JStr "https://example.com" ∧
  ExampleGenerator.generateExample Samples.contactUrlProperty = JStr "https://example.com".
Proof.
  repeat split.
  - intros [name type required description] Hprim Hformat. cbn in *.
    unfold ExampleGenerator.generateExample. cbn [pm_type pm_name].
    rewrite generateFromType_primitive by done.
    unfold ExampleGenerator.generatePrimitiveExample. by rewrite Hformat.
  - intros type Hprim Hformat.
    unfold ExampleGenerator.generateExample. cbn [pm_type pm_name].
    rewrite generateFromType_primitive by done.
    unfold ExampleGenerator.generatePrimitiveExample. by rewrite Hformat.
Qed.

Lemma generateExample_precedence_witness :
  (tm_isPrimitive (pm_type Samples.emailUriProperty) = true ∧
   tm_format (pm_type Samples.emailUriProperty) = Some "uri" ∧
   ExampleGenerator.generateExample Samples.emailUriProperty = JStr "https://example.com") ∧
  (tm_isPrimitive (Samples.stringMetadata None) = true ∧
   tm_format (Samples.stringMetadata None) = None ∧
   ExampleGenerator.generateExample
     (mkPropertyMetadata "contactUrl" (Samples.stringMetadata None) true None)
   = JStr "https://example.com").
Proof.
  split.
  - split; [reflexivity|]. split; [reflexivity|].
    apply (proj1 generateExample_precedence Samples.emailUriProperty); reflexivity.
  - split; [reflexivity|]. split; [reflexivity|].
    apply (proj1 (proj2 generateExample_precedence) (Samples.stringMetadata None)); reflexivity.
Defined.

(** C9, at [tags: string[]]: the analyzer marks an array of strings as
    primitive, and the generator tests [isPrimitive] before [isArray], so
    the example is the string itself and not a one-element array. *)
Theorem generateExample_string_array :
  ∃ property visited',
    analyzeProperty 3 Samples.tagsGraph Samples.tagsProperty ∅ = Some (property, visited') ∧
    tm_isArray (pm_type property) = true ∧
    tm_elementType (pm_type property) = Some (Samples.stringMetadata None) ∧
    ExampleGenerator.generateExample property = JStr "example" ∧
    ExampleGenerator.generateExample property
    ≠ JArr [ExampleGenerator.generateFromType (Samples.stringMetadata None) None].
Proof.
  destruct (analyzeProperty 3 Samples.tagsGraph Samples.tagsProperty ∅) as [[pm v']|] eqn:Hrun;
    [|vm_compute in Hrun; discriminate].
  exists pm, v'. split; [done|].
  vm_compute in Hrun. injection Hrun as <- _.
  repeat split; [vm_compute; discriminate].
Qed.

(** ** Configuration *)

Lemma missingOrEmpty_blank (value : Field string) :
  ConfigService.missingOrEmpty value = true ↔ blank value.
Proof.
  destruct value as [| |text]; cbn; [done..|].
  rewrite orb_true_iff, String.eqb_eq. split; [|by right].
  intros [Hempty|]; [|done].
  unfold JsString.truthy in Hempty. rewrite negb_involutive in Hempty.
  apply String.eqb_eq in Hempty. by subst.
Qed.

(** What the constructor does on every options object: it throws exactly
    when the title or the version is missing or empty once trimmed;
    otherwise it returns the options with title and version as given, with
    a default at each of the six keys that the options do not have, and
    with the options' own entry at each of the six keys that they have. *)
Theorem ConfigService_new_throws_iff (options : AutoDocsOptions) :
  ((∃ message, ConfigService.new options = inl message) ↔
     blank (opt_title options) ∨ blank (opt_version options)) ∧
  (¬ (blank (opt_title options) ∨ blank (opt_version options)) →
   ∃ config,
     ConfigService.new options = inr config ∧
     opt_title config = opt_title options ∧
     opt_version config = opt_version options ∧
     defaulted "src" (opt_sourcePath options) (opt_sourcePath config) ∧
     defaulted "/docs" (opt_docsPath options) (opt_docsPath config) ∧
     defaulted "/docs-json" (opt_specPath options) (opt_specPath config) ∧
     defaulted true (opt_scanOnStart options) (opt_scanOnStart config) ∧
     defaulted false (opt_watchMode options) (opt_watchMode config) ∧
     defaulted true (opt_includeSecurity options) (opt_includeSecurity config)).
Proof.
  unfold ConfigService.new, ConfigService.validateRequiredFields.
  rewrite <- !missingOrEmpty_blank.
  destruct (ConfigService.missingOrEmpty (opt_title options)) eqn:Htitle;
    [split; [split; [by left | by eexists] | intros []; by left]|].
  destruct (ConfigService.missingOrEmpty (opt_version options)) eqn:Hversion;
    [split; [split; [by right | by eexists] | intros []; by right]|].
  split; [split; [by intros [? ?] | by intros [|]]|].
  intros _. eexists. split; [done|]. cbn.
  repeat split;
    match goal with |- defaulted _ ?own _ => by destruct own end.
Qed.

Lemma ConfigService_new_throws_iff_witness :
  ¬ (blank (opt_title Samples.minimalOptions) ∨ blank (opt_version Samples.minimalOptions)) ∧
  ∃ config,
    ConfigService.new Samples.minimalOptions = inr config ∧
    opt_title config = opt_title Samples.minimalOptions ∧
    opt_version config = opt_version Samples.minimalOptions ∧
    defaulted "src" (opt_sourcePath Samples.minimalOptions) (opt_sourcePath config) ∧
    defaulted "/docs" (opt_docsPath Samples.minimalOptions) (opt_docsPath config) ∧
    defaulted "/docs-json" (opt_specPath Samples.minimalOptions) (opt_specPath config) ∧
    defaulted true (opt_scanOnStart Samples.minimalOptions) (opt_scanOnStart config) ∧
    defaulted false (opt_watchMode Samples.minimalOptions) (opt_watchMode config) ∧
    defaulted true (opt_includeSecurity Samples.minimalOptions) (opt_includeSecurity config).
Proof.
  assert (¬ (blank (opt_title Samples.minimalOptions)
             ∨ blank (opt_version Samples.minimalOptions))) as Hgiven.
  { intros [H|H]; vm_compute in H; discriminate. }
  split; [exact Hgiven|].
  exact (proj2 (ConfigService_new_throws_iff Samples.minimalOptions) Hgiven).
Defined.

(** C6, at the options [{ title: 'Test API', version: '1.0', sourcePath:
    undefined, docsPath: '' }]: the constructor returns;
    [options.sourcePath || 'src'] and [options.docsPath || '/docs'] are the
    defaults [src] and [/docs], and still the configuration holds
    [undefined] and the empty string at these keys, because the options
    are spread after the defaults and put their own entries back. The keys
    that the options do not have hold their defaults. *)
Theorem ConfigService_new_defaults_overridden :
  ∃ config,
    ConfigService.new Samples.blankPathOptions = inr config ∧
    ConfigService.orDefault (opt_sourcePath Samples.blankPathOptions) "src" = "src" ∧
    opt_sourcePath config = Undefined ∧
    ConfigService.orDefault (opt_docsPath Samples.blankPathOptions) "/docs" = "/docs" ∧
    opt_docsPath config = Present EmptyString ∧
    opt_specPath config = Present "/docs-json" ∧
    opt_scanOnStart config = Present true ∧
    opt_watchMode config = Present false ∧
    opt_includeSecurity config = Present true.
Proof.
  exists (ConfigService.mergeWithDefaults Samples.blankPathOptions).
  split; [vm_compute; reflexivity|]. repeat split; reflexivity.
Qed.

(** ** Paths *)

Section PathFacts.
Import JsString.

Lemma append_String (c : ascii) (a b : string) : String c a +:+ b = String c (a +:+ b).
Proof. reflexivity. Qed.

Lemma append_empty_r (a : string) : a +:+ EmptyString = a.
Proof. induction a as [|c a IH]; [done|]. by rewrite append_String, IH. Qed.

Lemma append_assoc (a b c : string) : (a +:+ b) +:+ c = a +:+ (b +:+ c).
Proof. induction a as [|x a IH]; [done|]. by rewrite !append_String, IH. Qed.

Lemma prefix_append (a t : string) : String.prefix a (a +:+ t) = true.
Proof.
  induction a as [|c a IH]; [by destruct t|].
  rewrite append_String. cbn. by destruct (ascii_dec c c).
Qed.


Lemma prefix_inv (a s : string) : String.prefix a s = true → ∃ t, s = a +:+ t.
Proof.
  revert s. induction a as [|c a IH]; intros s Hpre; [by exists s|].
  destruct s as [|d s]; [done|]. cbn in Hpre.
  destruct (ascii_dec c d) as [->|]; [|done].
  destruct (IH _ Hpre) as [t ->]. by exists t.
Qed.

Lemma headOk_dropWhile (s : string) : headOk (dropWhile isSlash s) = true.
Proof.
  induction s as [|c s IH]; [done|]. cbn [dropWhile].
  destruct (isSlash c) eqn:Hc; [done|]. cbn [headOk]. by rewrite Hc.
Qed.

Lemma lastOk_dropWhileEnd (s : string) : lastOk (dropWhileEnd isSlash s) = true.
Proof.
  induction s as [|c s IH]; [done|]. cbn [dropWhileEnd].
  destruct (dropWhileEnd isSlash s) as [|a r].
  - destruct (isSlash c) eqn:Hc; [done|]. cbn [lastOk]. by rewrite Hc.
  - exact IH.
Qed.

Lemma headOk_dropWhileEnd (s : string) : headOk s = true → headOk (dropWhileEnd isSlash s) = true.
Proof.
  destruct s as [|c s]; [done|]. cbn [headOk dropWhileEnd]. intros Hc.
  destruct (isSlash c) eqn:Hslash; [done|].
  destruct (dropWhileEnd isSlash s); cbn [headOk]; by rewrite Hslash.
Qed.

Lemma dropWhile_headOk (s : string) : headOk s = true → dropWhile isSlash s = s.
Proof.
  destruct s as [|c s]; [done|]. cbn [headOk dropWhile].
  by destruct (isSlash c) eqn:Hslash.
Qed.

Lemma dropWhileEnd_lastOk (s : string) : lastOk s = true → dropWhileEnd isSlash s = s.
Proof.
  induction s as [|c s IH]; [done|]. intros Hlast. cbn [dropWhileEnd].
  destruct s as [|d s].
  - cbn [lastOk dropWhileEnd] in *. by destruct (isSlash c).
  - rewrite IH by done. done.
Qed.

Lemma stripSlashes_ends (s : string) :
  headOk (PathUtils.stripSlashes s) = true ∧ lastOk (PathUtils.stripSlashes s) = true.
Proof.
  unfold PathUtils.stripSlashes. split.
  - apply headOk_dropWhileEnd, headOk_dropWhile.
  - apply lastOk_dropWhileEnd.
Qed.

Lemma stripSlashes_joinable (s : string) : joinable s → PathUtils.stripSlashes s = s.
Proof.
  intros (_ & Hhead & Hlast). unfold PathUtils.stripSlashes.
  by rewrite dropWhile_headOk, dropWhileEnd_lastOk.
Qed.

Lemma truthy_nonempty (s : string) : truthy s = true ↔ s ≠ EmptyString.
Proof. unfold truthy. rewrite negb_true_iff. apply String.eqb_neq. Qed.

(** The segments that [combinePaths] joins. *)
Lemma kept_segments_joinable (segments : list string) :
  Forall joinable
    (List.filter truthy (PathUtils.stripSlashes <$> List.filter truthy segments)).
Proof.
  apply Forall_forall. intros s Hin. apply list_elem_of_In, filter_In in Hin as [Hin Hne].
  apply list_elem_of_In, list_elem_of_fmap in Hin as (s0 & -> & _).
  split; [by apply truthy_nonempty|]. apply stripSlashes_ends.
Qed.

Lemma filter_truthy_joinable (l : list string) : Forall joinable l → List.filter truthy l = l.
Proof.
  induction 1 as [|s l (Hne & _) _ IH]; [done|]. cbn.
  apply truthy_nonempty in Hne. by rewrite Hne, IH.
Qed.

Lemma fmap_stripSlashes_joinable (l : list string) :
  Forall joinable l → PathUtils.stripSlashes <$> l = l.
Proof.
  induction 1 as [|s l Hs _ IH]; [done|]. cbn. by rewrite stripSlashes_joinable, IH.
Qed.

Lemma combinePaths_joinable (l : list string) :
  Forall joinable l → PathUtils.combinePaths l = join l.
Proof.
  intros Hl. unfold PathUtils.combinePaths.
  by rewrite (filter_truthy_joinable l), fmap_stripSlashes_joinable, filter_truthy_joinable.
Qed.

Lemma lastOk_append (a b : string) : b ≠ EmptyString → lastOk (a +:+ b) = lastOk b.
Proof.
  intros Hb. induction a as [|c a IH]; [done|]. rewrite append_String.
  cbn. destruct (a +:+ b) eqn:Hab; [|done]. by destruct a, b.
Qed.

Lemma join_joinable (l : list string) : Forall joinable l → l ≠ [] → joinable (join l).
Proof.
  induction 1 as [|s l Hs Hl IH]; [done|]. intros _.
  destruct l as [|s' l]; [done|].
  change (join (s :: s' :: l)) with (s +:+ String slash (join (s' :: l))).
  destruct IH as (Hne & Hhead & Hlast); [done|]. destruct Hs as (Hs & Hshead & _).
  split; [by destruct s|]. split.
  - by destruct s.
  - rewrite lastOk_append by done. by destruct (join (s' :: l)).
Qed.

Lemma join_app (a b : list string) :
  a ≠ [] → b ≠ [] → join (a ++ b)%list = join a +:+ String slash (join b).
Proof.
  induction a as [|s a IH]; [done|]. intros _ Hb.
  destruct a as [|s' a].
  - cbn [app]. by destruct b.
  - change (join ((s :: s' :: a) ++ b)%list)
      with (s +:+ String slash (join ((s' :: a) ++ b)%list)).
    rewrite IH by done.
    change (join (s :: s' :: a)) with (s +:+ String slash (join (s' :: a))).
    by rewrite append_assoc.
Qed.

Lemma headOk_prefix (s : string) : headOk s = true → startsWith s "/" = false.
Proof.
  destruct s as [|c s]; [done|]. unfold startsWith. cbn [String.prefix headOk]. intros Hc.
  destruct (ascii_dec "/" c) as [<-|]; [by vm_compute in Hc|done].
Qed.

Lemma lastOk_endsWith (s : string) : lastOk s = true → endsWith s "/" = false.
Proof.
  induction s as [|c s IH]; [done|]. intros Hlast.
  cbn [endsWith]. destruct s as [|d s].
  - cbn [lastOk] in Hlast. destruct (String.eqb_spec (String c EmptyString) "/") as [Heq|_];
      [|done]. injection Heq as ->. by vm_compute in Hlast.
  - rewrite IH by done. rewrite orb_false_r. apply String.eqb_neq.
    intros Heq. by simplify_eq.
Qed.

End PathFacts.



(** ** Versioned documents *)

(** C4: with versioning enabled under the prefix [/api], two services of
    versions [v1] and [v2] that each have one route at [admin/profile]
    (written with or without slashes around it) give a document with the
    two path keys [api/v1/admin/profile] and [api/v2/admin/profile] and
    with two servers, [/api/v1] labeled [API V1] and [/api/v2] labeled
    [API V2]. *)
Theorem generate_two_versions (v : OpenApiGenerator.Versioning)
    (service1 service2 : ControllerMetadata) (route1 route2 : RouteMetadata) :
  OpenApiGenerator.prefix v = "/api" →
  ctrl_version service1 = Some "v1" → ctrl_version service2 = Some "v2" →
  ctrl_routes service1 = [route1] → ctrl_routes service2 = [route2] →
  PathUtils.stripSlashes (route_fullPath route1) = "admin/profile" →
  PathUtils.stripSlashes (route_fullPath route2) = "admin/profile" →
  let document := OpenApiGenerator.generate v [service1; service2] in
  fst <$> OpenApiGenerator.paths document = ["api/v1/admin/profile"; "api/v2/admin/profile"] ∧
  "api/v1/admin/profile" ≠ "api/v2/admin/profile" ∧
  OpenApiGenerator.servers document
  = [ {| server_url := "/api/v1"; server_description := "API V1" |};
      {| server_url := "/api/v2"; server_description := "API V2" |} ].
Proof.
  intros Hprefix Hv1 Hv2 Hr1 Hr2 Hp1 Hp2 document. subst document.
  assert (∀ pre route, PathUtils.stripSlashes (route_fullPath route) = "admin/profile" →
            OpenApiGenerator.pathKey pre route
            = JsString.join (List.filter JsString.truthy
                               (PathUtils.stripSlashes <$> List.filter JsString.truthy [pre])
                             ++ ["admin/profile"])) as Hkey.
  { intros pre route Hp. unfold OpenApiGenerator.pathKey, PathUtils.combinePaths.
    destruct (route_fullPath route) as [|c s] eqn:Hfull; [by vm_compute in Hp|].
    destruct pre as [|e pre]; cbn [List.filter JsString.truthy String.eqb negb fmap list_fmap];
      rewrite Hp; [reflexivity|].
    by destruct (PathUtils.stripSlashes (String e pre)). }
  unfold OpenApiGenerator.generate, OpenApiGenerator.generatePaths,
    OpenApiGenerator.generateServers, OpenApiGenerator.versionPrefix.
  cbn [OpenApiGenerator.paths OpenApiGenerator.servers fold_left OpenApiGenerator.versionsOf].
  rewrite Hv1, Hv2, Hr1, Hr2, Hprefix. cbn [fold_left].
  rewrite !Hkey by done.
  split; [vm_compute; reflexivity|]. split; [discriminate|].
  vm_compute. reflexivity.
Qed.

Lemma generate_two_versions_witness :
  OpenApiGenerator.prefix Samples.apiVersioning = "/api" ∧
  ctrl_version Samples.adminControllerV1 = Some "v1" ∧
  ctrl_version Samples.adminControllerV2 = Some "v2" ∧
  ctrl_routes Samples.adminControllerV1 = [Samples.getProfile "/admin/profile"] ∧
  ctrl_routes Samples.adminControllerV2 = [Samples.getProfile "/admin/profile"] ∧
  PathUtils.stripSlashes (route_fullPath (Samples.getProfile "/admin/profile")) = "admin/profile" ∧
  (fst <$> OpenApiGenerator.paths
             (OpenApiGenerator.generate Samples.apiVersioning
                [Samples.adminControllerV1; Samples.adminControllerV2])
   = ["api/v1/admin/profile"; "api/v2/admin/profile"]) ∧
  OpenApiGenerator.servers
    (OpenApiGenerator.generate Samples.apiVersioning
       [Samples.adminControllerV1; Samples.adminControllerV2])
  = [ {| server_url := "/api/v1"; server_description := "API V1" |};
      {| server_url := "/api/v2"; server_description := "API V2" |} ].
Proof.
  do 6 (split; [reflexivity|]).
  pose proof (generate_two_versions Samples.apiVersioning
                Samples.adminControllerV1 Samples.adminControllerV2
                (Samples.getProfile "/admin/profile") (Samples.getProfile "/admin/profile")
                eq_refl eq_refl eq_refl eq_refl eq_refl eq_refl eq_refl) as [Hpaths [_ Hservers]].
  split; [exact Hpaths|exact Hservers].
Defined.

(** ** More about the resolver *)

Section DtoAnalyzerMore.

Implicit Types (g : TypeGraph) (t : TypeId) (visited : Visited).

Lemma mapM_within {A B} (names : gset string) (f : A → M B) (xs : list A) :
  (∀ x, within names (f x)) → within names (mapM f xs).
Proof.
  intros Hf. induction xs as [|x rest IH]; intros v ys v' Hrun; cbn in Hrun.
  - unfold ret in Hrun. simplify_eq. set_solver.
  - unfold bind, ret in Hrun.
    destruct (f x v) as [[y v1]|] eqn:Hx; [|done].
    destruct (mapM f rest v1) as [[zs v2]|] eqn:Hrest; [|done].
    simplify_eq. apply Hf in Hx. apply IH in Hrest. set_solver.
Qed.

Lemma analyzeType_within fuel g : ∀ t depth, within (typeNames g) (analyzeType fuel g t depth).
Proof.
  induction fuel as [|fuel IH]; intros t depth v r v' Hrun; [done|].
  cbn [analyzeType] in Hrun. unfold analyzeTypeWith in Hrun.
  destruct (maxDepth <? depth); [unfold ret in Hrun; simplify_eq; set_solver|].
  destruct (decide (getText (node g t) ∈ v)); [unfold ret in Hrun; simplify_eq; set_solver|].
  unfold bind at 1 in Hrun.
  destruct (analyzeElementWith _ _ _ _ v) as [[el v1]|] eqn:Hel; [|done].
  assert (v1 ⊆ v ∪ typeNames g) as Hv1.
  { unfold analyzeElementWith, bind, ret in Hel. destruct (isArray _); [|simplify_eq; set_solver].
    destruct (analyzeType fuel g _ _ v) as [[e w]|] eqn:He; [|done].
    simplify_eq. by eapply IH. }
  pose proof (getText_node_typeNames g t) as Hname.
  unfold ret in Hrun.
  repeat (match type of Hrun with
          | (if ?b then _ else _) _ = _ => destruct b
          | (if ?b then _ else _) = _ => destruct b
          end; try (simplify_eq; done)).
  destruct (classProperties _) as [properties|]; [|simplify_eq; set_solver].
  unfold bind in Hrun.
  destruct (mapM _ properties _) as [[props v2]|] eqn:Hprops; [|done].
  simplify_eq.
  apply (mapM_within (typeNames g)) in Hprops; [set_solver|].
  intros p w pm w' Hp. unfold analyzePropertyWith, bind, ret in Hp.
  destruct (analyzeType fuel g _ 0 w) as [[ty w1]|] eqn:Hty; [|done].
  simplify_eq. by eapply IH.
Qed.

(** X1: whatever [analyzeType] is called on, it never takes a name out of
    [visitedTypes], and the names it adds are texts of types of the
    graph. *)
Theorem analyzeType_visited_bounds (fuel : nat) (g : TypeGraph) (t : TypeId) (depth : Z)
    (visited visited' : Visited) :
  snd <$> analyzeType fuel g t depth visited = Some visited' →
  visited ⊆ visited' ∧ visited' ⊆ visited ∪ typeNames g.
Proof.
  intros Hrun.
  destruct (analyzeType fuel g t depth visited) as [[r v]|] eqn:Hr; [|done].
  cbn in Hrun. simplify_eq. split.
  - by eapply analyzeType_grows.
  - by eapply analyzeType_within.
Qed.

Lemma analyzeType_visited_bounds_witness :
  snd <$> analyzeType 3 Samples.selfGraph 0%nat 0 ∅ = Some ({[ "Employee" ]} : Visited) ∧
  (∅ : Visited) ⊆ {[ "Employee" ]} ∧
  ({[ "Employee" ]} : Visited) ⊆ ∅ ∪ typeNames Samples.selfGraph.
Proof.
  assert (snd <$> analyzeType 3 Samples.selfGraph 0%nat 0 ∅
          = Some ({[ "Employee" ]} : Visited)) as Hrun by (vm_compute; reflexivity).
  split; [exact Hrun|].
  exact (analyzeType_visited_bounds 3 Samples.selfGraph 0%nat 0 ∅ _ Hrun).
Defined.

Lemma analyzeDto_returns g c visited :
  ∃ d visited', analyzeDto (fuelFor g ∅ 0) g c visited = Some (d, visited').
Proof.
  unfold analyzeDto, bind, ret.
  destruct (mapM_returns (analyzeProperty (fuelFor g ∅ 0) g) (class_getProperties c) ∅)
    with (visited := (∅ : Visited)) as (props & v' & Hprops & _); [|done|].
  - intros p w _. destruct (analyzeProperty_returns g p w) as (pm & w' & Hpm & _).
    exists pm, w'. split; [done|]. eapply analyzePropertyWith_grows, Hpm.
    apply analyzeType_grows.
  - rewrite Hprops. by eexists _, _.
Qed.

(** X2: [analyzeDto] returns (from some amount of fuel on, always the same
    result) a descriptor with one property per declared property, in the
    order of declaration, each with the declared name and with [required]
    computed from its question token and initializer; the name is the
    class name, or [UnknownDto] for a class without one. *)
Theorem analyzeDto_lists_declared_properties (g : TypeGraph) (c : ClassDeclaration)
    (visited : Visited) :
  ∃ fuel d visited',
    (∀ fuel', (fuel ≤ fuel')%nat → analyzeDto fuel' g c visited = Some (d, visited')) ∧
    pm_name <$> dto_properties d = prop_getName <$> class_getProperties c ∧
    pm_required <$> dto_properties d = declaredRequired <$> class_getProperties c ∧
    dto_name d = match class_getName c with
                 | Some EmptyString | None => "UnknownDto"
                 | Some n => n
                 end.
Proof.
  destruct (analyzeDto_returns g c visited) as (d & v' & Hrun).
  exists (fuelFor g ∅ 0), d, v'.
  split; [intros fuel' Hle; by apply (analyzeDto_more_fuel g _ _ Hle) in Hrun|].
  unfold analyzeDto, bind, ret in Hrun.
  destruct (mapM _ (class_getProperties c) ∅) as [[props v1]|] eqn:Hprops; [|done].
  simplify_eq. cbn [dto_properties dto_name].
  split; [|split].
  - eapply mapM_fmap; [|exact Hprops].
    intros p v pm w Hp. unfold analyzeProperty, analyzePropertyWith, bind, ret in Hp.
    destruct (analyzeType _ g _ 0 v) as [[ty w1]|]; [|done]. by simplify_eq.
  - eapply mapM_fmap; [|exact Hprops].
    intros p v pm w Hp. unfold analyzeProperty, analyzePropertyWith, bind, ret in Hp.
    destruct (analyzeType _ g _ 0 v) as [[ty w1]|]; [|done]. by simplify_eq.
  - by destruct (class_getName c) as [[|? ?]|].
Qed.

(** In the result of [mapM] an element comes from a run that starts after
    the run of every element before it has ended. *)
Lemma mapM_ordered {A B} (f : A → M B) (xs : list A) :
  (∀ x, grows (f x)) →
  ∀ v ys v', mapM f xs v = Some (ys, v') →
    ∀ i j x y x' y', (i < j)%nat →
      xs !! i = Some x → ys !! i = Some y → xs !! j = Some x' → ys !! j = Some y' →
      ∃ va vb vc vd, f x va = Some (y, vb) ∧ vb ⊆ vc ∧ f x' vc = Some (y', vd).
Proof.
  intros Hf. induction xs as [|x0 rest IH]; intros v ys v' Hrun i j x y x' y' Hlt Hx Hy Hx' Hy';
    [by destruct i|].
  cbn in Hrun. unfold bind, ret in Hrun.
  destruct (f x0 v) as [[y0 v1]|] eqn:Hx0; [|done].
  destruct (mapM f rest v1) as [[zs v2]|] eqn:Hrest; [|done].
  simplify_eq. destruct j as [|j]; [lia|]. cbn in Hx', Hy'.
  destruct i as [|i]; cbn in Hx, Hy; simplify_eq.
  - destruct (mapM_lookup f rest Hf _ _ _ Hrest) as [_ Hall].
    destruct (Hall j x' y' Hx' Hy') as (va & vb & Hsub & Hone).
    by exists v, v1, va, vb.
  - eapply IH; [exact Hrest| |done..]. lia.
Qed.

(** X3: within one [analyzeDto] a class is expanded once. When a property
    has been resolved to a descriptor with properties, every later
    property whose type prints as the same name is the bare reference,
    cycle or not. *)
Theorem analyzeDto_expands_class_once (g : TypeGraph) (c : ClassDeclaration) (visited : Visited) :
  ∃ fuel d visited',
    (∀ fuel', (fuel ≤ fuel')%nat → analyzeDto fuel' g c visited = Some (d, visited')) ∧
    ∀ i j p q first later,
      (i < j)%nat →
      class_getProperties c !! i = Some p → class_getProperties c !! j = Some q →
      getText (node g (prop_getType q)) = getText (node g (prop_getType p)) →
      dto_properties d !! i = Some first → dto_properties d !! j = Some later →
      is_Some (tm_properties (pm_type first)) →
      pm_type later = visitedReference (getText (node g (prop_getType q))).
Proof.
  destruct (analyzeDto_returns g c visited) as (d & v' & Hrun).
  exists (fuelFor g ∅ 0), d, v'.
  split; [intros fuel' Hle; by apply (analyzeDto_more_fuel g _ _ Hle) in Hrun|].
  unfold analyzeDto, bind, ret in Hrun.
  destruct (mapM _ (class_getProperties c) ∅) as [[props v1]|] eqn:Hprops; [|done].
  simplify_eq. cbn [dto_properties].
  intros i j p q first later Hlt Hp Hq Hname Hfirst Hlater [nested Hnested].
  unfold fuelFor in Hprops. rewrite Nat.add_1_r in Hprops.
  destruct (mapM_ordered _ _ (λ x, analyzePropertyWith_grows _ x (analyzeType_grows _ g))
              _ _ _ Hprops i j p first q later Hlt Hp Hfirst Hq Hlater)
    as (va & vb & vc & vd & Hrunp & Hsub & Hrunq).
  unfold analyzeProperty, analyzePropertyWith, bind, ret in Hrunp, Hrunq.
  destruct (analyzeType (S _) g (prop_getType p) 0 va) as [[ty w]|] eqn:Hty; [|done].
  simplify_eq. cbn in Hnested.
  destruct (analyzeType_properties _ _ _ _ _ _ _ _ Hty Hnested)
    as (declared & w1 & _ & _ & Hmap).
  apply mapM_grows in Hmap; [|intros x; apply analyzePropertyWith_grows, analyzeType_grows].
  rewrite analyzeType_visited in Hrunq; [by simplify_eq|unfold maxDepth; lia|].
  rewrite Hname. set_solver.
Qed.

Lemma analyzeDto_expands_class_once_witness :
  ∃ fuel d visited',
    (∀ fuel', (fuel ≤ fuel')%nat →
       analyzeDto fuel' Samples.invoiceGraph Samples.invoiceClass ∅ = Some (d, visited')) ∧
    ∀ i j p q first later,
      (i < j)%nat →
      class_getProperties Samples.invoiceClass !! i = Some p →
      class_getProperties Samples.invoiceClass !! j = Some q →
      getText (node Samples.invoiceGraph (prop_getType q))
      = getText (node Samples.invoiceGraph (prop_getType p)) →
      dto_properties d !! i = Some first → dto_properties d !! j = Some later →
      is_Some (tm_properties (pm_type first)) →
      pm_type later = visitedReference (getText (node Samples.invoiceGraph (prop_getType q))).
Proof. exact (analyzeDto_expands_class_once Samples.invoiceGraph Samples.invoiceClass ∅). Defined.

(** [Invoice] with two properties of type [Customer]: the first is
    expanded, the second is the bare reference. *)
Example analyzeDto_invoice :
  (dto_properties ∘ fst) <$> analyzeDto 3 Samples.invoiceGraph Samples.invoiceClass ∅
  = Some [ mkPropertyMetadata "billing"
             (mkTypeMetadata "Customer" false false false false None
                (Some [ mkPropertyMetadata "name" (Samples.stringMetadata None) true None ])
                None None None)
             true None;
           mkPropertyMetadata "shipping" (visitedReference "Customer") true None ].
Proof. vm_compute. reflexivity. Qed.

(** An element type in a descriptor is the result of a call one level
    deeper. *)
Lemma analyzeType_elementType fuel g t depth visited r visited' e :
  analyzeType (S fuel) g t depth visited = Some (r, visited') →
  tm_elementType r = Some e →
  depth ≤ maxDepth ∧
  ∃ va vb, analyzeType fuel g (baseTypeId g t) (depth + 1) va = Some (e, vb).
Proof.
  intros Hrun Hel. cbn [analyzeType] in Hrun. unfold analyzeTypeWith in Hrun.
  destruct (maxDepth <? depth) eqn:Hdepth; [unfold ret in Hrun; by simplify_eq|].
  apply Z.ltb_ge in Hdepth. split; [done|].
  destruct (decide (getText (node g t) ∈ visited)); [unfold ret in Hrun; by simplify_eq|].
  unfold bind at 1 in Hrun.
  destruct (analyzeElementWith _ _ _ _ visited) as [[el v1]|] eqn:Helem; [|done].
  assert (tm_elementType r = el) as Hr.
  { unfold ret in Hrun.
    repeat (match type of Hrun with
            | (if ?b then _ else _) _ = _ => destruct b
            | (if ?b then _ else _) = _ => destruct b
            end; try (by simplify_eq)).
    destruct (classProperties _) as [declared|]; [|by simplify_eq].
    unfold bind in Hrun. destruct (mapM _ declared _) as [[ps v2]|]; [|done].
    by simplify_eq. }
  rewrite Hel in Hr. subst el.
  unfold analyzeElementWith, bind, ret in Helem. destruct (isArray _); [|done].
  destruct (analyzeType fuel g _ _ visited) as [[e' w]|] eqn:He; [|done].
  simplify_eq. by exists visited, v1.
Qed.

Lemma analyzeType_element_depth fuel g :
  ∀ t depth visited r visited',
    analyzeType fuel g t depth visited = Some (r, visited') → depth ≤ maxDepth + 1 →
    element (Z.to_nat (maxDepth + 2 - depth)) r = None ∧
    ∀ x, element (Z.to_nat (maxDepth + 1 - depth)) r = Some x → x = unknownType.
Proof.
  induction fuel as [|fuel IH]; intros t depth v r v' Hrun Hdepth; [done|].
  destruct (decide (depth ≤ maxDepth)) as [Hle|Hgt].
  - replace (Z.to_nat (maxDepth + 2 - depth)) with (S (Z.to_nat (maxDepth + 2 - (depth + 1))))
      by (unfold maxDepth in *; lia).
    replace (Z.to_nat (maxDepth + 1 - depth)) with (S (Z.to_nat (maxDepth + 1 - (depth + 1))))
      by (unfold maxDepth in *; lia).
    cbn [element]. destruct (tm_elementType r) as [e|] eqn:He; [|done].
    destruct (analyzeType_elementType _ _ _ _ _ _ _ _ Hrun He) as (_ & va & vb & Hsub).
    eapply IH; [exact Hsub|lia].
  - cbn [analyzeType] in Hrun. unfold analyzeTypeWith in Hrun.
    destruct (maxDepth <? depth) eqn:Hlt; [|apply Z.ltb_ge in Hlt; lia].
    unfold ret in Hrun. simplify_eq.
    replace depth with (maxDepth + 1) by lia. split; [reflexivity|].
    intros x Hx. vm_compute in Hx. by simplify_eq.
Qed.

(** X4: the depth guard as it works: a call at a depth of at most
    [maxDepth + 1] returns a descriptor whose chain of element types has at
    most [maxDepth + 1 - depth] links, and a chain of that full length ends
    in the [unknown] descriptor. *)
Theorem analyzeType_element_chain_bounded (g : TypeGraph) (t : TypeId) (depth : Z)
    (visited : Visited) :
  depth ≤ maxDepth + 1 →
  ∃ fuel r visited',
    (∀ fuel', (fuel ≤ fuel')%nat → analyzeType fuel' g t depth visited = Some (r, visited')) ∧
    element (Z.to_nat (maxDepth + 2 - depth)) r = None ∧
    ∀ x, element (Z.to_nat (maxDepth + 1 - depth)) r = Some x → x = unknownType.
Proof.
  intros Hdepth.
  destruct (analyzeType_returns g (fuelFor g visited depth) t depth visited)
    as (r & v' & Hrun & _); [done|].
  exists (fuelFor g visited depth), r, v'.
  split; [intros fuel' Hle; by apply (analyzeType_more_fuel g _ _ Hle) in Hrun|].
  by eapply analyzeType_element_depth.
Qed.

Lemma analyzeType_element_chain_bounded_witness :
  0 ≤ maxDepth + 1 ∧
  ∃ fuel r visited',
    (∀ fuel', (fuel ≤ fuel')%nat →
       analyzeType fuel' Samples.nestedArrayGraph 0%nat 0 ∅ = Some (r, visited')) ∧
    element (Z.to_nat (maxDepth + 2 - 0)) r = None ∧
    ∀ x, element (Z.to_nat (maxDepth + 1 - 0)) r = Some x → x = unknownType.
Proof.
  assert (0 ≤ maxDepth + 1) as Hdepth by (vm_compute; discriminate).
  split; [exact Hdepth|].
  exact (analyzeType_element_chain_bounded Samples.nestedArrayGraph 0%nat 0 ∅ Hdepth).
Defined.

Lemma lowerChar_idempotent (c : ascii) :
  JsString.lowerChar (JsString.lowerChar c) = JsString.lowerChar c.
Proof. destruct c as [[] [] [] [] [] [] [] []]; reflexivity. Qed.

Lemma toLowerCase_idempotent (s : string) :
  JsString.toLowerCase (JsString.toLowerCase s) = JsString.toLowerCase s.
Proof. induction s as [|c s IH]; cbn; [done|]. by rewrite lowerChar_idempotent, IH. Qed.

(** X5: the format detected for a type name does not depend on the case of
    its letters: lower-casing the name first gives the same format. *)
Theorem detectStringFormat_ignores_case (typeName : string) :
  detectStringFormat (JsString.toLowerCase typeName) = detectStringFormat typeName.
Proof. unfold detectStringFormat. by rewrite toLowerCase_idempotent. Qed.

Lemma find_isNamed name classes found :
  List.find (isNamed name) classes = Some found → class_getName found = Some name.
Proof.
  intros Hfind. apply List.find_some in Hfind as [_ Hnamed]. unfold isNamed in Hnamed.
  destruct (class_getName found) as [n|]; [|done]. apply String.eqb_eq in Hnamed. by subst.
Qed.

(** X6: [findDtoByName] returns the first class of that name in the order
    of the files and of the classes in each file; what it returns has the
    name, and it returns nothing exactly when no class of any file has
    it. *)
Theorem findDtoByName_first_match (name : string)
    (sourceFiles : list (SourceFile ClassDeclaration)) :
  findDtoByName name sourceFiles = List.find (isNamed name) (allClasses sourceFiles) ∧
  (∀ found, findDtoByName name sourceFiles = Some found → class_getName found = Some name) ∧
  (findDtoByName name sourceFiles = None ↔
   ∀ sourceFile cls, sourceFile ∈ sourceFiles → cls ∈ file_getClasses sourceFile →
     class_getName cls ≠ Some name).
Proof.
  assert (findDtoByName name sourceFiles = List.find (isNamed name) (allClasses sourceFiles))
    as Hfind.
  { unfold allClasses. induction sourceFiles as [|file rest IH]; [done|].
    cbn [findDtoByName fmap list_fmap concat]. rewrite IH.
    induction (file_getClasses file) as [|cls classes IHc]; [done|].
    cbn. by destruct (isNamed name cls). }
  split; [done|]. rewrite Hfind. split.
  - intros found. apply find_isNamed.
  - split.
    + intros Hnone file cls Hfile Hcls Hname.
      assert (isNamed name cls = false) as Hnot.
      { apply (List.find_none _ _ Hnone cls).
        unfold allClasses. apply in_concat. exists (file_getClasses file).
        split; [|by apply list_elem_of_In].
        apply list_elem_of_In. by apply list_elem_of_fmap_2. }
      unfold isNamed in Hnot. rewrite Hname, String.eqb_refl in Hnot. done.
    + intros Hall. destruct (List.find _ _) as [found|] eqn:Hsome; [|done]. exfalso.
      pose proof (find_isNamed _ _ _ Hsome) as Hname.
      apply List.find_some in Hsome as [Hin _].
      unfold allClasses in Hin. apply in_concat in Hin as (classes & Hclasses & Hcls).
      apply list_elem_of_In, list_elem_of_fmap in Hclasses as (file & -> & Hfile).
      apply (Hall file found); [done| |done]. by apply list_elem_of_In.
Qed.

End DtoAnalyzerMore.

(** ** More about the examples *)

#[local] Open Scope list_scope.

Lemma setNamed_fresh (fields : list (string * JsValue)) (key : string) (v : JsValue) :
  key ∉ fields.*1 → JsObject.setNamed fields key v = fields ++ [(key, v)].
Proof.
  induction fields as [|[k w] rest IH]; intros Hfresh; cbn in *; [done|].
  apply not_elem_of_cons in Hfresh as [Hne Hfresh].
  destruct (String.eqb_spec k key) as [->|_]; [done|]. by rewrite IH.
Qed.

Lemma obj_set_fresh (fields : list (string * JsValue)) (proto : option JsValue)
    (key : string) (v : JsValue) :
  ordinaryKey key = true → key ∉ fields.*1 →
  obj_set (JObj fields proto) key v = JObj (fields ++ [(key, v)]) proto.
Proof.
  intros Hkey Hfresh. unfold ordinaryKey in Hkey.
  apply andb_true_iff in Hkey as [Hproto Hindex]. apply negb_true_iff in Hproto.
  unfold obj_set, JsObject.defineOwn. rewrite Hproto. cbn [andb].
  destruct (JsObject.arrayIndex key); [done|]. by rewrite setNamed_fresh.
Qed.

Lemma exampleEntries_from (props : list PropertyMetadata) (example : list (string * JsValue))
    (proto : option JsValue) :
  NoDup (example.*1 ++ (pm_name <$> props)) →
  Forall (λ p, ordinaryKey (pm_name p) = true) props →
  fold_left (λ example property,
               obj_set example (pm_name property) (ExampleGenerator.generateExample property))
    props (JObj example proto)
  = JObj (example ++ (exampleEntry <$> props)) proto.
Proof.
  revert example. induction props as [|p rest IH]; intros example Hdup Hkeys;
    cbn [fold_left fmap list_fmap].
  - by rewrite app_nil_r.
  - apply NoDup_app in Hdup as (Hexample & Hfresh & Hrest).
    apply Forall_cons in Hkeys as [Hkey Hkeys].
    rewrite obj_set_fresh; [|done|intros Hin; apply (Hfresh _ Hin); left].
    rewrite IH; [|..|done].
    + by rewrite <- app_assoc.
    + rewrite fmap_app. cbn. rewrite <- app_assoc. cbn.
      apply NoDup_app. split; [done|]. split; [|done].
      intros x Hx Hin. by apply (Hfresh x).
Qed.

(** The object branch of [generateFromType] builds what
    [generateObjectExample] builds. *)
Lemma generateFromType_properties (tm : TypeMetadata) (fieldName : option string)
    (props : list PropertyMetadata) :
  tm_isPrimitive tm = false → tm_elementType tm = None → tm_isEnum tm = false →
  tm_properties tm = Some props →
  ExampleGenerator.generateFromType tm fieldName
  = ExampleGenerator.generateObjectExample props.
Proof.
  intros Hprim Hel Henum Hprops. destruct tm. cbn in *. subst.
  assert (∀ ps acc,
            (fix each (props : list PropertyMetadata) (example : JsValue) :=
               match props with
               | [] => example
               | prop :: rest =>
                   each rest (obj_set example (pm_name prop)
                                (ExampleGenerator.generateFromType (pm_type prop)
                                   (Some (pm_name prop))))
               end) ps acc
            = fold_left (λ example property,
                           obj_set example (pm_name property)
                             (ExampleGenerator.generateExample property)) ps acc) as Heach.
  { induction ps as [|q ps IH]; intros acc; [done|]. cbn. apply IH. }
  destruct tm_isArray0; by rewrite Heach.
Qed.

(** X7: for properties with pairwise distinct names, none of them an array
    index or [__proto__], the object example has one own property per
    property, in the order of the properties, holding the property's own
    example, and the prototype of an object literal;
    [generateObjectExample] and the object branch of [generateFromType]
    build the same object. *)
Theorem generateObjectExample_entries (tm : TypeMetadata) (fieldName : option string)
    (props : list PropertyMetadata) :
  NoDup (pm_name <$> props) →
  Forall (λ p, ordinaryKey (pm_name p) = true) props →
  tm_isPrimitive tm = false → tm_elementType tm = None → tm_isEnum tm = false →
  tm_properties tm = Some props →
  ExampleGenerator.generateObjectExample props = JObj (exampleEntry <$> props) None ∧
  ExampleGenerator.generateFromType tm fieldName = JObj (exampleEntry <$> props) None.
Proof.
  intros Hdup Hkeys Hprim Hel Henum Hprops.
  assert (ExampleGenerator.generateObjectExample props = JObj (exampleEntry <$> props) None)
    as Hobj.
  { unfold ExampleGenerator.generateObjectExample. by rewrite exampleEntries_from. }
  split; [done|]. by rewrite (generateFromType_properties _ _ props), Hobj.
Qed.

Lemma generateObjectExample_entries_witness :
  let props := [Samples.emailUriProperty; Samples.contactUrlProperty] in
  let tm := mkTypeMetadata "Contact" false false false false None (Some props) None None None in
  NoDup (pm_name <$> props) ∧
  Forall (λ p, ordinaryKey (pm_name p) = true) props ∧
  tm_isPrimitive tm = false ∧ tm_elementType tm = None ∧ tm_isEnum tm = false ∧
  tm_properties tm = Some props ∧
  ExampleGenerator.generateObjectExample props = JObj (exampleEntry <$> props) None ∧
  ExampleGenerator.generateFromType tm None = JObj (exampleEntry <$> props) None.
Proof.
  intros props tm.
  assert (NoDup (pm_name <$> props)) as Hdup.
  { apply (bool_decide_unpack _). vm_compute. exact I. }
  assert (Forall (λ p, ordinaryKey (pm_name p) = true) props) as Hkeys.
  { repeat constructor. }
  split; [exact Hdup|]. split; [exact Hkeys|]. do 4 (split; [reflexivity|]).
  exact (generateObjectExample_entries tm None props Hdup Hkeys eq_refl eq_refl eq_refl eq_refl).
Defined.

(** Where the order of the assignments is not the order of the keys: an
    array index goes before the names, whenever it is assigned, and
    assigning a string to [__proto__] makes no own property. *)
Example obj_set_samples :
  obj_set (obj_set (obj_set (JObj [] None) "b" (JStr "x")) "10" (JStr "y")) "9" (JStr "z")
  = JObj [("9", JStr "z"); ("10", JStr "y"); ("b", JStr "x")] None ∧
  obj_set (obj_set (JObj [] None) "a" (JStr "x")) "__proto__" (JStr "y")
  = JObj [("a", JStr "x")] None ∧
  obj_set (obj_set (JObj [] None) "__proto__" JNull) "__proto__" (JStr "y")
  = JObj [("__proto__", JStr "y")] (Some JNull).
Proof. repeat split; reflexivity. Qed.

Lemma formatExample_defined (format : string) (v : JsValue) :
  ExampleGenerator.formatExample format = Some v → v ≠ JNull ∧ v ≠ JUndefined.
Proof.
  unfold ExampleGenerator.formatExample. intros Hv.
  repeat (match type of Hv with (if ?b then _ else _) = _ => destruct b end;
          [by simplify_eq|]).
  done.
Qed.

Lemma fieldNameExample_defined (fieldName : string) (v : JsValue) :
  ExampleGenerator.fieldNameExample fieldName = Some v → v ≠ JNull ∧ v ≠ JUndefined.
Proof.
  unfold ExampleGenerator.fieldNameExample. cbv zeta. intros Hv.
  repeat (match type of Hv with (if ?b then _ else _) = _ => destruct b end;
          [by simplify_eq|]).
  done.
Qed.

Lemma generatePrimitiveExample_defined (tm : TypeMetadata) (fieldName : option string) :
  tm_type tm ∈ ["string"; "number"; "boolean"] →
  ExampleGenerator.generatePrimitiveExample tm fieldName ≠ JNull ∧
  ExampleGenerator.generatePrimitiveExample tm fieldName ≠ JUndefined.
Proof.
  intros Htype. unfold ExampleGenerator.generatePrimitiveExample. cbv zeta.
  destruct (match tm_format tm with
            | Some f => if JsString.truthy f then ExampleGenerator.formatExample f else None
            | None => None
            end) as [v|] eqn:Hformat.
  { destruct (tm_format tm) as [f|]; [|done]. destruct (JsString.truthy f); [|done].
    by eapply formatExample_defined. }
  destruct (match fieldName with
            | Some n => if JsString.truthy n then ExampleGenerator.fieldNameExample n else None
            | None => None
            end) as [v|] eqn:Hname.
  { destruct fieldName as [n|]; [|done]. destruct (JsString.truthy n); [|done].
    by eapply fieldNameExample_defined. }
  repeat (apply elem_of_cons in Htype as [->|Htype]; [by vm_compute|]).
  by apply elem_of_nil in Htype.
Qed.

(** A descriptor of the analyzer that is marked primitive is a string, a
    number or a boolean. *)
Lemma analyzeType_primitive fuel g t depth visited r visited' :
  analyzeType fuel g t depth visited = Some (r, visited') →
  tm_isPrimitive r = true → tm_type r ∈ ["string"; "number"; "boolean"].
Proof.
  destruct fuel as [|fuel]; [done|]. intros Hrun Hprim.
  cbn [analyzeType] in Hrun. unfold analyzeTypeWith in Hrun.
  destruct (maxDepth <? depth); [unfold ret in Hrun; by simplify_eq|].
  destruct (decide (getText (node g t) ∈ visited)); [unfold ret in Hrun; by simplify_eq|].
  unfold bind at 1 in Hrun.
  destruct (analyzeElementWith _ _ _ _ visited) as [[el v1]|]; [|done].
  unfold ret in Hrun.
  repeat (match type of Hrun with
          | (if ?b then _ else _) _ = _ => destruct b
          | (if ?b then _ else _) = _ => destruct b
          end; try (simplify_eq; cbn in *; (done || set_solver))).
  destruct (classProperties _) as [declared|]; [|by simplify_eq].
  unfold bind in Hrun. destruct (mapM _ declared _) as [[ps v2]|]; [|done].
  by simplify_eq.
Qed.

(** X8: a property that the analyzer marks primitive always gets an
    example: the generator returns neither null nor undefined for it,
    whatever its name and format. *)
Theorem generateExample_primitive_defined (g : TypeGraph) (p : PropertyDeclaration)
    (visited : Visited) :
  ∃ fuel property visited',
    (∀ fuel', (fuel ≤ fuel')%nat →
       analyzeProperty fuel' g p visited = Some (property, visited')) ∧
    (tm_isPrimitive (pm_type property) = true →
     ExampleGenerator.generateExample property ≠ JNull ∧
     ExampleGenerator.generateExample property ≠ JUndefined).
Proof.
  destruct (analyzeProperty_returns g p visited) as (pm & v' & Hrun & _).
  exists (fuelFor g ∅ 0), pm, v'.
  split; [intros fuel' Hle; by apply (analyzeProperty_more_fuel g _ _ Hle) in Hrun|].
  intros Hprim. unfold ExampleGenerator.generateExample.
  rewrite generateFromType_primitive by done.
  apply generatePrimitiveExample_defined.
  unfold analyzeProperty, analyzePropertyWith, bind, ret in Hrun.
  destruct (analyzeType _ g _ 0 visited) as [[ty w]|] eqn:Hty; [|done].
  simplify_eq. by eapply analyzeType_primitive.
Qed.

Lemma generateExample_primitive_defined_witness :
  ∃ fuel property visited',
    (∀ fuel', (fuel ≤ fuel')%nat →
       analyzeProperty fuel' Samples.tagsGraph Samples.tagsProperty ∅
       = Some (property, visited')) ∧
    (tm_isPrimitive (pm_type property) = true →
     ExampleGenerator.generateExample property ≠ JNull ∧
     ExampleGenerator.generateExample property ≠ JUndefined).
Proof. exact (generateExample_primitive_defined Samples.tagsGraph Samples.tagsProperty ∅). Defined.

(** ** More about the validation annotations *)

Lemma existsb_recognized (name : string) :
  existsb (String.eqb name) ValidatorExtractor.recognized = true ↔
  name ∈ ValidatorExtractor.recognized.
Proof.
  rewrite existsb_exists. split.
  - intros (c & Hin & Heq). apply String.eqb_eq in Heq. subst. by apply list_elem_of_In.
  - intros Hin. exists name. split; [by apply list_elem_of_In|apply String.eqb_refl].
Qed.

(** What [mapValidatorDecorator] returns carries the name of the
    decorator, and it returns something exactly for the kept names. *)
Lemma mapValidatorDecorator_kept (parseInt : string → option Q) (decorator : Decorator) :
  match ValidatorExtractor.mapValidatorDecorator parseInt decorator with
  | Some validator =>
      vm_name validator = dec_getName decorator ∧ keptValidator (dec_getName decorator) = true
  | None => keptValidator (dec_getName decorator) = false
  end.
Proof.
  unfold keptValidator.
  destruct (existsb (String.eqb (dec_getName decorator)) ValidatorExtractor.recognized)
    eqn:Hrec.
  - apply existsb_recognized in Hrec.
    destruct (mapValidatorDecorator_recognized parseInt decorator Hrec) as (v & -> & Hname).
    done.
  - assert (dec_getName decorator ∉ ValidatorExtractor.recognized) as Hnot.
    { intros Hin. apply existsb_recognized in Hin. congruence. }
    unfold ValidatorExtractor.mapValidatorDecorator. cbv zeta.
    set (name := dec_getName decorator) in *.
    assert (∀ c, c ∈ ValidatorExtractor.recognized → String.eqb name c = false) as Hother.
    { intros c Hc. apply String.eqb_neq. by intros <-. }
    repeat match goal with
           | |- context [String.eqb name ?c] =>
               rewrite (Hother c) by (unfold ValidatorExtractor.recognized; set_solver)
           end.
    cbn [orb]. by destruct (JsString.startsWith name "Is" || JsString.startsWith name "Validate").
Qed.

(** X9: [extractValidators] keeps, in their order and under their own
    names, the decorators whose name has a case of its own or starts with
    [Is] or [Validate], and drops every other decorator. *)
Theorem extractValidators_names (parseInt : string → option Q) (decorators : list Decorator) :
  vm_name <$> ValidatorExtractor.extractValidators parseInt decorators
  = List.filter keptValidator (dec_getName <$> decorators).
Proof.
  unfold ValidatorExtractor.extractValidators.
  induction decorators as [|d rest IH]; [done|]. cbn.
  pose proof (mapValidatorDecorator_kept parseInt d) as Hd.
  destruct (ValidatorExtractor.mapValidatorDecorator parseInt d) as [v|].
  - destruct Hd as [Hname ->]. cbn. by rewrite Hname, IH.
  - by rewrite Hd.
Qed.

Lemma stripDelimiters_literal (pattern : string) :
  ValidatorExtractor.stripDelimiters ("/" +:+ pattern +:+ "/") = pattern.
Proof.
  unfold ValidatorExtractor.stripDelimiters.
  match goal with |- ?f _ = _ => set (dropLast := f) end.
  change (dropLast (pattern +:+ "/") = pattern).
  induction pattern as [|c p IH]; [done|].
  change (dropLast (String c (p +:+ "/")) = String c p).
  destruct (p +:+ "/") as [|d rest] eqn:Hrest; [by destruct p|].
  change (String c (dropLast (String d rest)) = String c p). by rewrite IH.
Qed.

(** X10: for [@Matches(/p/)] the argument is kept as written and the
    pattern is the text between the two slashes, whatever it is. *)
Theorem mapValidatorDecorator_matches (parseInt : string → option Q)
    (pattern : string) (others : list string) :
  ValidatorExtractor.mapValidatorDecorator parseInt
    {| dec_getName := "Matches"; dec_getArguments := ("/" +:+ pattern +:+ "/") :: others |}
  = Some {| vm_name := "Matches";
            vm_args := Some [JStr ("/" +:+ pattern +:+ "/")];
            vm_constraints := [("pattern", JStr pattern)] |}.
Proof.
  unfold ValidatorExtractor.mapValidatorDecorator. cbn -[ValidatorExtractor.stripDelimiters].
  by rewrite stripDelimiters_literal.
Qed.

(** ** More about the configuration *)

(** X11: merging the defaults twice changes nothing more, and a key that
    the options have (even with [undefined] or an empty string) is never
    replaced by its default. *)
Theorem mergeWithDefaults_idempotent (options : AutoDocsOptions) :
  ConfigService.mergeWithDefaults (ConfigService.mergeWithDefaults options)
  = ConfigService.mergeWithDefaults options ∧
  (opt_sourcePath options ≠ Absent →
   opt_sourcePath (ConfigService.mergeWithDefaults options) = opt_sourcePath options) ∧
  (opt_docsPath options ≠ Absent →
   opt_docsPath (ConfigService.mergeWithDefaults options) = opt_docsPath options) ∧
  (opt_specPath options ≠ Absent →
   opt_specPath (ConfigService.mergeWithDefaults options) = opt_specPath options) ∧
  (opt_scanOnStart options ≠ Absent →
   opt_scanOnStart (ConfigService.mergeWithDefaults options) = opt_scanOnStart options) ∧
  (opt_watchMode options ≠ Absent →
   opt_watchMode (ConfigService.mergeWithDefaults options) = opt_watchMode options) ∧
  (opt_includeSecurity options ≠ Absent →
   opt_includeSecurity (ConfigService.mergeWithDefaults options) = opt_includeSecurity options).
Proof.
  destruct options as [? ? ? sourcePath ? docsPath specPath ? ? ? scanOnStart watchMode ?
                         includeSecurity ? ?].
  unfold ConfigService.mergeWithDefaults. cbn.
  split; [|repeat split; intros Hown;
            match goal with |- ConfigService.spread _ ?own = _ => by destruct own end].
  f_equal;
    match goal with |- ConfigService.spread _ (ConfigService.spread _ ?own) = _ =>
      by destruct own
    end.
Qed.

(** X12: the options that [AutoDocsModule.forRoot] hands on and the
    configuration that [ConfigService] builds from the same options are
    the same, although one writes the defaults as literals and the other
    as [options.key || default]. *)
Theorem forRoot_agrees_with_ConfigService (options : AutoDocsOptions) :
  AutoDocsModule.mergedOptions options = ConfigService.mergeWithDefaults options.
Proof.
  destruct options as [? ? ? sourcePath ? docsPath specPath ? ? ? scanOnStart watchMode ?
                         includeSecurity ? ?].
  unfold AutoDocsModule.mergedOptions, ConfigService.mergeWithDefaults. cbn.
  f_equal;
    match goal with |- ConfigService.spread _ ?own = _ => by destruct own end.
Qed.

(** ** More about the paths *)


(** X13: whatever the segments, the combined path neither starts nor ends
    with a slash, and it is empty exactly when every segment is empty or
    made of slashes only. *)
Theorem combinePaths_no_slash_at_ends (segments : list string) :
  JsString.startsWith (PathUtils.combinePaths segments) "/" = false ∧
  JsString.endsWith (PathUtils.combinePaths segments) "/" = false ∧
  (PathUtils.combinePaths segments = EmptyString ↔
   ∀ s, s ∈ segments → PathUtils.stripSlashes s = EmptyString).
Proof.
  pose proof (kept_segments_joinable segments) as Hkept.
  unfold PathUtils.combinePaths.
  set (kept := List.filter JsString.truthy
                 (PathUtils.stripSlashes <$> List.filter JsString.truthy segments)) in *.
  assert (kept = [] ↔ ∀ s, s ∈ segments → PathUtils.stripSlashes s = EmptyString) as Hempty.
  { subst kept. clear Hkept. induction segments as [|s segments IH]; [by split; [intros _ ? ?%elem_of_nil|]|].
    cbn [List.filter]. destruct (JsString.truthy s) eqn:Hs.
    - cbn [fmap list_fmap List.filter].
      destruct (JsString.truthy (PathUtils.stripSlashes s)) eqn:Hstrip.
      + split; [done|]. intros Hall. apply truthy_nonempty in Hstrip.
        destruct Hstrip. apply Hall. by left.
      + rewrite IH. unfold JsString.truthy in Hstrip. rewrite negb_false_iff in Hstrip.
        apply String.eqb_eq in Hstrip. split.
        * intros Hall x [->|Hx]%elem_of_cons; [done|by apply Hall].
        * intros Hall x Hx. apply Hall. by right.
    - rewrite IH. unfold JsString.truthy in Hs. rewrite negb_false_iff in Hs.
      apply String.eqb_eq in Hs. subst s. split.
      + intros Hall x [->|Hx]%elem_of_cons; [done|by apply Hall].
      + intros Hall x Hx. apply Hall. by right. }
  destruct kept as [|k others] eqn:Hk.
  - split; [done|]. split; [done|]. rewrite <- Hempty. done.
  - destruct (join_joinable (k :: others) Hkept) as (Hne & Hhead & Hlast); [done|].
    split; [by apply headOk_prefix|]. split; [by apply lastOk_endsWith|].
    rewrite <- Hempty. split; [done|]. intros Heq. by simplify_eq.
Qed.

(** X14: combining is compositional: combining all the segments at once
    gives what combining the two halves first and then the two results
    gives; in particular a combined path is left as it is when it is
    combined again. *)
Theorem combinePaths_compositional (front back : list string) :
  PathUtils.combinePaths (front ++ back)
  = PathUtils.combinePaths [PathUtils.combinePaths front; PathUtils.combinePaths back] ∧
  PathUtils.combinePaths [PathUtils.combinePaths front] = PathUtils.combinePaths front.
Proof.
  pose proof (kept_segments_joinable front) as Hfront.
  pose proof (kept_segments_joinable back) as Hback.
  assert (PathUtils.combinePaths (front ++ back)
          = JsString.join
              (List.filter JsString.truthy
                 (PathUtils.stripSlashes <$> List.filter JsString.truthy front)
               ++ List.filter JsString.truthy
                    (PathUtils.stripSlashes <$> List.filter JsString.truthy back))) as ->.
  { unfold PathUtils.combinePaths. by rewrite List.filter_app, fmap_app, List.filter_app. }
  unfold PathUtils.combinePaths at 2 3 5 6.
  set (A := List.filter JsString.truthy
              (PathUtils.stripSlashes <$> List.filter JsString.truthy front)) in *.
  set (B := List.filter JsString.truthy
              (PathUtils.stripSlashes <$> List.filter JsString.truthy back)) in *.
  assert (∀ l, Forall joinable l →
            PathUtils.combinePaths [JsString.join l] = JsString.join l) as Hone.
  { intros l Hl. destruct l as [|s l]; [done|].
    rewrite combinePaths_joinable; [done|]. constructor; [|done]. by apply join_joinable. }
  assert (∀ s, PathUtils.combinePaths [EmptyString; s] = PathUtils.combinePaths [s]) as Hskip
    by done.
  assert (∀ s, PathUtils.combinePaths [s; EmptyString] = PathUtils.combinePaths [s]) as Hskip'.
  { intros s. unfold PathUtils.combinePaths. cbn [List.filter].
    destruct (JsString.truthy s); done. }
  split; [|by apply Hone].
  destruct A as [|a A], B as [|b B].
  - done.
  - change (JsString.join []) with EmptyString. by rewrite Hskip, Hone.
  - change (JsString.join []) with EmptyString. by rewrite Hskip', Hone, app_nil_r.
  - rewrite join_app by done.
    rewrite combinePaths_joinable; [done|].
    constructor; [by apply join_joinable|]. constructor; [by apply join_joinable|done].
Qed.

Section ParamFacts.
Import PathUtils.

Lemma isWordChar_not_colon (c : ascii) : isWordChar c = true → Ascii.eqb c ":" = false.
Proof.
  intros Hword. destruct (Ascii.eqb_spec c ":") as [->|]; [by vm_compute in Hword|done].
Qed.

Lemma convertParamsFrom_head (path : string) :
  startsWithWordChar (convertParamsFrom false path) = startsWithWordChar path.
Proof.
  destruct path as [|c rest]; [done|]. cbn [convertParamsFrom].
  destruct (Ascii.eqb_spec c ":") as [->|]; [|done].
  by destruct (startsWithWordChar rest).
Qed.

Lemma noToken_convertParamsFrom (path : string) :
  ∀ inParam, noToken (convertParamsFrom inParam path) = true.
Proof.
  induction path as [|c rest IH]; intros inParam; [by destruct inParam|].
  cbn [convertParamsFrom].
  assert (noToken (if Ascii.eqb c ":" && startsWithWordChar rest
                   then String "{" (convertParamsFrom true rest)
                   else String c (convertParamsFrom false rest)) = true) as Houtside.
  { destruct (Ascii.eqb c ":" && startsWithWordChar rest) eqn:Htoken.
    - cbn [noToken]. by rewrite IH.
    - cbn [noToken]. by rewrite convertParamsFrom_head, Htoken, IH. }
  destruct inParam; [|done].
  destruct (isWordChar c) eqn:Hword.
  - cbn [noToken]. by rewrite (isWordChar_not_colon c Hword), IH.
  - cbn [noToken]. by rewrite Houtside.
Qed.

Lemma convertParamsFrom_noToken (path : string) :
  noToken path = true → convertParamsFrom false path = path.
Proof.
  induction path as [|c rest IH]; [done|]. cbn [noToken convertParamsFrom].
  intros [Htoken Hrest]%andb_true_iff. apply negb_true_iff in Htoken.
  by rewrite Htoken, IH.
Qed.

Lemma spanDigits_spec (s : string) :
  s = (spanDigits s).1 +:+ (spanDigits s).2 ∧ allDigits (spanDigits s).1 = true.
Proof.
  induction s as [|c s [IHs IHd]]; [done|]. cbn [spanDigits].
  destruct (isDigit c) eqn:Hc; [|done].
  destruct (spanDigits s) as [ds after]. cbn [fst snd allDigits] in *.
  split; [by rewrite append_String, <- IHs|by rewrite Hc, IHd].
Qed.

Lemma spanDigits_append (ds : string) (c : ascii) (rest : string) :
  allDigits ds = true → isDigit c = false →
  spanDigits (ds +:+ String c rest) = (ds, String c rest).
Proof.
  intros Hds Hc. induction ds as [|d ds IH].
  - change (EmptyString +:+ String c rest) with (String c rest). cbn [spanDigits].
    by rewrite Hc.
  - rewrite append_String. cbn [spanDigits].
    cbn [allDigits] in Hds. apply andb_true_iff in Hds as [Hd Hds]. by rewrite Hd, IH.
Qed.

Lemma versionAtFront_spec (s version : string) :
  versionAtFront s = Some version →
  ∃ ds after, version = String "v" ds ∧ ds ≠ EmptyString ∧ allDigits ds = true ∧
              s = "/" +:+ version +:+ "/" +:+ after.
Proof.
  unfold versionAtFront. intros Hfront.
  repeat case_match; simplify_eq.
  match goal with H : spanDigits ?rest = (?ds, ?after) |- _ =>
    pose proof (spanDigits_spec rest) as [Hrest Hdigits]; rewrite H in Hrest, Hdigits;
    cbn [fst snd] in Hrest, Hdigits; exists ds;
    match after with String _ ?tail => exists tail end
  end.
  split; [done|]. split; [done|]. split; [done|]. by rewrite Hrest at 1.
Qed.

End ParamFacts.

(** X15: the result of [convertParams] has no parameter token left (no
    colon directly before a word character), a path without tokens is
    returned as it is, and so converting a second time changes nothing. *)
Theorem convertParams_removes_every_token (path : string) :
  noToken (PathUtils.convertParams path) = true ∧
  PathUtils.convertParams (PathUtils.convertParams path) = PathUtils.convertParams path ∧
  (noToken path = true → PathUtils.convertParams path = path).
Proof.
  unfold PathUtils.convertParams.
  pose proof (noToken_convertParamsFrom path false) as Hdone.
  split; [done|]. split; [by apply convertParamsFrom_noToken|].
  apply convertParamsFrom_noToken.
Qed.

Lemma convertParams_removes_every_token_witness :
  noToken (PathUtils.convertParams "admin/:userId/posts/:postId") = true ∧
  PathUtils.convertParams (PathUtils.convertParams "admin/:userId/posts/:postId")
  = PathUtils.convertParams "admin/:userId/posts/:postId" ∧
  (noToken "admin/:userId/posts/:postId" = true →
   PathUtils.convertParams "admin/:userId/posts/:postId" = "admin/:userId/posts/:postId").
Proof. exact (convertParams_removes_every_token "admin/:userId/posts/:postId"). Defined.

(** The conversions that utils/path-utils.spec.ts expects. *)
Example convertParams_samples :
  PathUtils.convertParams "admin/:id" = "admin/{id}" ∧
  PathUtils.convertParams "admin/:userId/posts/:postId" = "admin/{userId}/posts/{postId}" ∧
  PathUtils.convertParams "admin/profile" = "admin/profile" ∧
  PathUtils.convertParams ":id/profile" = "{id}/profile".
Proof. repeat split; reflexivity. Qed.

(** X16: what [versionMatch] finds is [v] followed by one or more digits,
    and it stands between two slashes in the path; it finds nothing
    exactly when the path has no such part. *)
Theorem versionMatch_between_slashes (path : string) :
  (∀ version, PathUtils.versionMatch path = Some version →
     ∃ ds, version = String "v" ds ∧ ds ≠ EmptyString ∧ allDigits ds = true ∧
           JsString.includes path ("/" +:+ version +:+ "/") = true) ∧
  (PathUtils.versionMatch path = None →
   ∀ ds, ds ≠ EmptyString → allDigits ds = true →
     JsString.includes path ("/v" +:+ ds +:+ "/") = false).
Proof.
  split.
  - induction path as [|c rest IH]; intros version Hmatch; [done|].
    cbn [PathUtils.versionMatch] in Hmatch.
    destruct (PathUtils.versionAtFront (String c rest)) as [found|] eqn:Hfront.
    + simplify_eq. destruct (versionAtFront_spec _ _ Hfront) as (ds & after & -> & Hne & Hds & Hs).
      exists ds. split; [done|]. split; [done|]. split; [done|].
      cbn [JsString.includes]. apply orb_true_iff. left. rewrite Hs.
      rewrite <- !append_assoc. apply prefix_append.
    + destruct (IH _ Hmatch) as (ds & -> & Hne & Hds & Hin).
      exists ds. split; [done|]. split; [done|]. split; [done|].
      cbn [JsString.includes]. apply orb_true_iff. by right.
  - induction path as [|c rest IH]; intros Hnone ds Hne Hds; [done|].
    cbn [PathUtils.versionMatch] in Hnone.
    destruct (PathUtils.versionAtFront (String c rest)) as [found|] eqn:Hfront; [done|].
    cbn [JsString.includes]. rewrite (IH Hnone ds Hne Hds), orb_false_r.
    destruct (String.prefix _ (String c rest)) eqn:Hprefix; [|done].
    apply prefix_inv in Hprefix as [after Hs]. exfalso.
    rewrite Hs in Hfront. rewrite !append_assoc in Hfront.
    change ("/v" +:+ ds +:+ "/" +:+ after) with (String "/" (String "v" (ds +:+ String "/" after)))
      in Hfront.
    unfold PathUtils.versionAtFront in Hfront.
    rewrite (spanDigits_append ds "/" after Hds eq_refl) in Hfront.
    by destruct ds.
Qed.

Lemma versionMatch_between_slashes_witness :
  PathUtils.versionMatch "src/api/v1/nested/v2/admin.ts" = Some "v1" ∧
  ∃ ds, "v1" = String "v" ds ∧ ds ≠ EmptyString ∧ allDigits ds = true ∧
        JsString.includes "src/api/v1/nested/v2/admin.ts" ("/" +:+ "v1" +:+ "/") = true.
Proof.
  split; [reflexivity|].
  exact (proj1 (versionMatch_between_slashes "src/api/v1/nested/v2/admin.ts") "v1" eq_refl).
Defined.

(** ** The module scanner *)

Section ModuleScannerFacts.
Import JsString ModuleScanner.

Lemma find_allModules {B} (pred : ModuleInfo → bool) (found : ModuleInfo → B)
    (scan : list (SourceFile DecoratedClass) → option B)
    (sourceFiles : list (SourceFile DecoratedClass)) :
  (∀ file rest, scan (file :: rest)
                = match List.find pred (extractModulesFromFile file) with
                  | Some m => Some (found m)
                  | None => scan rest
                  end) →
  scan [] = None →
  scan sourceFiles = found <$> List.find pred (allModules sourceFiles).
Proof.
  intros Hstep Hnil. unfold allModules.
  induction sourceFiles as [|file rest IH]; [done|].
  rewrite Hstep, IH. cbn [fmap list_fmap concat].
  induction (extractModulesFromFile file) as [|m ms IHm]; [done|].
  cbn. by destruct (pred m).
Qed.

(** X17: [findModuleForController] answers with the formatted name of the
    first module, in the order of the files and of the classes in each
    file, whose controllers include the name, and with null exactly when
    no module of any file includes it. *)
Theorem findModuleForController_first_match (controllerName : string)
    (sourceFiles : list (SourceFile DecoratedClass)) :
  findModuleForController controllerName sourceFiles
  = (formatModuleName ∘ mod_name)
      <$> List.find (listsController controllerName) (allModules sourceFiles) ∧
  (findModuleForController controllerName sourceFiles = None ↔
   ∀ module, module ∈ allModules sourceFiles → controllerName ∉ mod_controllers module).
Proof.
  assert (findModuleForController controllerName sourceFiles
          = (formatModuleName ∘ mod_name)
              <$> List.find (listsController controllerName) (allModules sourceFiles)) as Hfind.
  { by apply (find_allModules _ (formatModuleName ∘ mod_name)
                (findModuleForController controllerName)). }
  split; [done|]. rewrite Hfind.
  assert (∀ module, listsController controllerName module = true
                    ↔ controllerName ∈ mod_controllers module) as Hlists.
  { intros module. unfold listsController. rewrite existsb_exists. split.
    - intros (c & Hin & Heq). apply String.eqb_eq in Heq. subst. by apply list_elem_of_In.
    - intros Hin. exists controllerName. split; [by apply list_elem_of_In|apply String.eqb_refl]. }
  split.
  - intros Hnone module Hin Hlisted.
    destruct (List.find _ _) as [m|] eqn:Hsome; [done|].
    apply list_elem_of_In in Hin.
    pose proof (List.find_none _ _ Hsome module Hin) as Hnot.
    apply Hlists in Hlisted. congruence.
  - intros Hall. destruct (List.find _ _) as [m|] eqn:Hsome; [|done]. exfalso.
    apply List.find_some in Hsome as [Hin Hlisted].
    apply (Hall m); [by apply list_elem_of_In|by apply Hlists].
Qed.

Lemma insert_all_lookup (modules : list ModuleInfo) (tree : gmap string ModuleInfo)
    (name : string) :
  fold_left (λ moduleMap module, <[ mod_name module := module ]> moduleMap) modules tree !! name
  = match last (filter (λ module, mod_name module = name) modules) with
    | Some module => Some module
    | None => tree !! name
    end.
Proof.
  revert tree. induction modules as [|m modules IH]; intros tree; [done|].
  cbn [fold_left]. rewrite IH. rewrite filter_cons.
  destruct (decide (mod_name m = name)) as [<-|Hne].
  - destruct (filter _ modules) as [|m' ms] eqn:Hfilter.
    + cbn. by rewrite lookup_insert_eq.
    + rewrite last_cons_cons. destruct (last (m' :: ms)) eqn:Hlast; [done|].
      by apply last_None in Hlast.
  - destruct (last _); [done|]. by rewrite lookup_insert_ne.
Qed.

(** X18: in the tree of [buildModuleTree] a name leads to the last module
    of that name in the order of the scan (a later module replaces an
    earlier one), and a name that no module has leads to nothing. *)
Theorem buildModuleTree_lookup (sourceFiles : list (SourceFile DecoratedClass)) (name : string) :
  buildModuleTree sourceFiles !! name
  = last (filter (λ module, mod_name module = name) (allModules sourceFiles)).
Proof.
  unfold buildModuleTree, allModules.
  assert (∀ files (tree : gmap string ModuleInfo),
            fold_left
              (λ moduleMap sourceFile,
                 fold_left (λ moduleMap module, <[ mod_name module := module ]> moduleMap)
                   (extractModulesFromFile sourceFile) moduleMap) files tree
            = fold_left (λ moduleMap module, <[ mod_name module := module ]> moduleMap)
                (concat (extractModulesFromFile <$> files)) tree) as Hfold.
  { induction files as [|file files IH]; intros tree; [done|].
    cbn. by rewrite IH, fold_left_app. }
  rewrite Hfold, insert_all_lookup, lookup_empty. by destruct (last _).
Qed.

End ModuleScannerFacts.

Section FormatFacts.
Import JsString ModuleScanner.

Lemma length_append (a b : string) :
  String.length (a +:+ b) = (String.length a + String.length b)%nat.
Proof. induction a as [|c a IH]; [done|]. rewrite append_String. cbn. by rewrite IH. Qed.

Lemma removeModuleSuffix_append (name : string) : removeModuleSuffix (name +:+ "Module") = name.
Proof.
  induction name as [|c name IH]; [done|].
  rewrite append_String. cbn [removeModuleSuffix].
  destruct (String.eqb_spec (String c (name +:+ "Module")) "Module") as [Heq|_].
  - apply (f_equal String.length) in Heq. cbn in Heq. rewrite length_append in Heq.
    cbn in Heq. lia.
  - by rewrite IH.
Qed.

Lemma splitBeforeCapitals_nonempty (s : string) : splitBeforeCapitals s ≠ [].
Proof.
  destruct s as [|c s]; [done|]. cbn [splitBeforeCapitals].
  destruct (splitBeforeCapitals s); [done|]. by destruct (startsWithCapital s).
Qed.

Lemma noCapital_head (s : string) : noCapital s = true → startsWithCapital s = false.
Proof.
  destruct s as [|c s]; [done|]. cbn [noCapital startsWithCapital].
  intros [Hc _]%andb_true_iff. by apply negb_true_iff.
Qed.

(** Characters that are not capitals stay in the piece they are in; the
    next piece starts at [rest], which is empty or starts with a capital. *)
Lemma splitBeforeCapitals_tail (tail rest : string) :
  noCapital tail = true →
  (rest = EmptyString ∨ startsWithCapital rest = true) →
  splitBeforeCapitals (tail +:+ rest)
  = match tail, rest with
    | EmptyString, _ => splitBeforeCapitals rest
    | _, EmptyString => [tail]
    | _, _ => tail :: splitBeforeCapitals rest
    end.
Proof.
  intros Htail Hrest. induction tail as [|d tail IH]; [done|].
  cbn [noCapital] in Htail. apply andb_true_iff in Htail as [Hd Htail].
  rewrite append_String. cbn [splitBeforeCapitals]. rewrite (IH Htail).
  destruct tail as [|e tail].
  - change (EmptyString +:+ rest) with rest.
    destruct Hrest as [->|Hcap]; [done|]. rewrite Hcap.
    pose proof (splitBeforeCapitals_nonempty rest) as Hne.
    destruct (splitBeforeCapitals rest); [done|]. by destruct rest.
  - rewrite append_String.
    assert (startsWithCapital (String e (tail +:+ rest)) = false) as ->.
    { cbn [noCapital] in Htail. apply andb_true_iff in Htail as [He _].
      by apply negb_true_iff. }
    by destruct rest.
Qed.

Lemma camelCase_head (words : list string) :
  Forall (λ w, capitalizedWord w = true) words →
  camelCase words = EmptyString ∨ startsWithCapital (camelCase words) = true.
Proof.
  intros Hwords. destruct Hwords as [|w words Hw _]; [by left|]. right.
  destruct w as [|c w]; [done|]. cbn [capitalizedWord] in Hw.
  apply andb_true_iff in Hw as [Hc _].
  unfold camelCase. cbn [fold_right]. by rewrite append_String.
Qed.

Lemma splitBeforeCapitals_camelCase (words : list string) :
  Forall (λ w, capitalizedWord w = true) words → words ≠ [] →
  splitBeforeCapitals (camelCase words) = words.
Proof.
  induction 1 as [|w words Hw Hwords IH]; [done|]. intros _.
  destruct w as [|c tail]; [done|]. cbn [capitalizedWord] in Hw.
  apply andb_true_iff in Hw as [Hc Htail].
  cbn [camelCase fold_right]. fold (camelCase words). rewrite append_String.
  cbn [splitBeforeCapitals].
  pose proof (camelCase_head words Hwords) as Hrest.
  rewrite (splitBeforeCapitals_tail tail (camelCase words) Htail Hrest).
  destruct tail as [|e tail].
  - change (EmptyString +:+ camelCase words) with (camelCase words).
    destruct words as [|w' words]; [done|]. rewrite IH by done.
    destruct Hrest as [Hempty| ->]; [|done].
    inversion Hwords as [|? ? Hw' _]; subst. destruct w'; done.
  - rewrite append_String.
    assert (startsWithCapital (String e (tail +:+ camelCase words)) = false) as ->.
    { cbn [noCapital] in Htail. apply andb_true_iff in Htail as [He _].
      by apply negb_true_iff. }
    destruct words as [|w' words].
    + done.
    + rewrite IH by done. destruct (camelCase (w' :: words)) eqn:Hcamel; [|done].
      inversion Hwords as [|? ? Hw' _]; subst. destruct w'; done.
Qed.

End FormatFacts.

(** X19: a class name written in camel case with the suffix [Module] is
    formatted to its words separated by single spaces: the suffix goes and
    a space comes before every capital letter but the first. *)
Theorem formatModuleName_words (words : list string) :
  Forall (λ w, capitalizedWord w = true) words →
  ModuleScanner.formatModuleName (camelCase words +:+ "Module") = ModuleScanner.joinSpace words.
Proof.
  intros Hwords. unfold ModuleScanner.formatModuleName.
  rewrite removeModuleSuffix_append.
  destruct words as [|w words]; [done|].
  rewrite splitBeforeCapitals_camelCase by done.
  f_equal. clear -Hwords. induction Hwords as [|x xs Hx _ IH]; [done|].
  cbn [List.filter]. destruct x; [done|]. by rewrite IH.
Qed.

Lemma formatModuleName_words_witness :
  Forall (λ w, capitalizedWord w = true) ["User"; "Profile"; "Settings"] ∧
  ModuleScanner.formatModuleName (camelCase ["User"; "Profile"; "Settings"] +:+ "Module")
  = ModuleScanner.joinSpace ["User"; "Profile"; "Settings"].
Proof.
  assert (Forall (λ w, capitalizedWord w = true) ["User"; "Profile"; "Settings"]) as Hwords
    by (repeat constructor).
  split; [exact Hwords|]. exact (formatModuleName_words _ Hwords).
Defined.

(** The names that scanner/module-scanner.spec.ts expects. *)
Example formatModuleName_samples :
  ModuleScanner.formatModuleName "AdminModule" = "Admin" ∧
  ModuleScanner.formatModuleName "AdminAuthModule" = "Admin Auth" ∧
  ModuleScanner.formatModuleName "UserProfileSettingsModule" = "User Profile Settings" ∧
  ModuleScanner.formatModuleName "Admin" = "Admin".
Proof. repeat split; reflexivity. Qed.

Section ControllersFacts.
Import JsString ModuleScanner.

Lemma plainChar_spec (c : ascii) :
  plainChar c = true →
  Ascii.eqb c "," = false ∧ Ascii.eqb c "]" = false ∧ Ascii.eqb c "/" = false ∧
  isWhiteSpace c = false.
Proof.
  unfold plainChar. rewrite negb_true_iff, !orb_false_iff. tauto.
Qed.

Lemma plainName_inv (n : string) :
  plainName n = true → ∃ c rest, n = String c rest ∧ plainChar c = true ∧ allPlain n = true.
Proof.
  destruct n as [|c rest]; [done|]. intros Hplain. exists c, rest.
  split; [done|]. split; [|done]. cbn in Hplain. by apply andb_true_iff in Hplain as [-> _].
Qed.

Lemma splitComma_nonempty (s : string) : splitComma s ≠ [].
Proof.
  destruct s as [|c s]; [done|]. cbn [splitComma].
  destruct (splitComma s); [done|]. by destruct (Ascii.eqb c ",").
Qed.

Lemma splitComma_plain (n rest : string) :
  allPlain n = true →
  splitComma (n +:+ rest)
  = match splitComma rest with
    | piece :: pieces => (n +:+ piece) :: pieces
    | [] => []
    end.
Proof.
  intros Hplain. induction n as [|c n IH].
  - change (EmptyString +:+ rest) with rest. by destruct (splitComma rest).
  - cbn [allPlain] in Hplain. apply andb_true_iff in Hplain as [Hc Hplain].
    destruct (plainChar_spec c Hc) as (Hcomma & _).
    rewrite append_String. cbn [splitComma]. rewrite (IH Hplain), Hcomma.
    pose proof (splitComma_nonempty rest). by destruct (splitComma rest).
Qed.

Lemma splitComma_commaSeparated (n : string) (names : list string) :
  Forall (λ n, plainName n = true) (n :: names) →
  splitComma (commaSeparated (n :: names)) = n :: (String " " <$> names).
Proof.
  revert n. induction names as [|n' names IH]; intros n Hnames.
  - inversion Hnames as [|? ? Hn _]; subst.
    destruct (plainName_inv n Hn) as (c & rest & -> & _ & Hplain).
    cbn [commaSeparated]. rewrite <- (append_empty_r (String c rest)) at 1.
    rewrite (splitComma_plain _ _ Hplain). cbn [splitComma]. by rewrite append_empty_r.
  - inversion Hnames as [|? ? Hn Hrest]; subst.
    destruct (plainName_inv n Hn) as (c & rest & -> & _ & Hplain).
    change (commaSeparated (String c rest :: n' :: names))
      with (String c rest +:+ String "," (String " " (commaSeparated (n' :: names)))).
    rewrite (splitComma_plain _ _ Hplain). cbn [splitComma].
    rewrite (IH n' Hrest). change (Ascii.eqb "," ",") with true.
    change (Ascii.eqb " " ",") with false. cbn iota. by rewrite append_empty_r.
Qed.

Lemma untilBracket_plain (n rest : string) :
  allPlain n = true → untilBracket (n +:+ rest) = String.append n <$> untilBracket rest.
Proof.
  intros Hplain. induction n as [|c n IH].
  - change (EmptyString +:+ rest) with rest. by destruct (untilBracket rest).
  - cbn [allPlain] in Hplain. apply andb_true_iff in Hplain as [Hc Hplain].
    destruct (plainChar_spec c Hc) as (_ & Hbracket & _).
    rewrite append_String. cbn [untilBracket]. rewrite Hbracket, (IH Hplain).
    by destruct (untilBracket rest).
Qed.

Lemma untilBracket_commaSeparated (names : list string) (after : string) :
  Forall (λ n, plainName n = true) names →
  untilBracket (commaSeparated names +:+ String "]" after) = Some (commaSeparated names).
Proof.
  induction 1 as [|n names Hn Hnames IH]; [done|].
  destruct (plainName_inv n Hn) as (c & rest & -> & _ & Hplain).
  destruct names as [|n' names].
  - cbn [commaSeparated]. rewrite (untilBracket_plain _ _ Hplain).
    change (untilBracket (String "]" after)) with (Some EmptyString).
    cbn. by rewrite append_empty_r.
  - change (commaSeparated (String c rest :: n' :: names))
      with (String c rest +:+ String "," (String " " (commaSeparated (n' :: names)))).
    rewrite append_assoc. rewrite (untilBracket_plain _ _ Hplain).
    rewrite !append_String. cbn [untilBracket].
    change (Ascii.eqb "," "]") with false. change (Ascii.eqb " " "]") with false. cbn iota.
    rewrite IH. done.
Qed.

Lemma dropWhileEnd_plain (n : string) :
  allPlain n = true → dropWhileEnd isWhiteSpace n = n.
Proof.
  induction n as [|c n IH]; [done|]. cbn [allPlain dropWhileEnd].
  intros [Hc Hplain]%andb_true_iff. rewrite (IH Hplain).
  destruct (plainChar_spec c Hc) as (_ & _ & _ & Hws). rewrite Hws. by destruct n.
Qed.

Lemma trim_plain (n : string) : plainName n = true → trim n = n ∧ trim (String " " n) = n.
Proof.
  intros Hn. destruct (plainName_inv n Hn) as (c & rest & -> & Hc & Hplain).
  destruct (plainChar_spec c Hc) as (_ & _ & _ & Hws).
  unfold trim. cbn [dropWhile]. change (isWhiteSpace " ") with true. cbn iota.
  cbn [dropWhile]. rewrite Hws. by rewrite dropWhileEnd_plain.
Qed.

Lemma removeBlockComments_plain (n : string) :
  allPlain n = true → removeBlockComments n = n.
Proof.
  unfold removeBlockComments. induction n as [|c n IH]; [done|].
  cbn [allPlain removeBlockCommentsFrom]. intros [Hc Hplain]%andb_true_iff.
  destruct (plainChar_spec c Hc) as (_ & _ & Hslash & _). rewrite Hslash. cbn [andb].
  by rewrite (IH Hplain).
Qed.

Lemma arrayEntries_commaSeparated (names : list string) :
  Forall (λ n, plainName n = true) names → arrayEntries (commaSeparated names) = names.
Proof.
  intros Hnames. unfold arrayEntries. destruct names as [|n names]; [done|].
  rewrite (splitComma_commaSeparated n names Hnames).
  assert (trim <$> (n :: (String " " <$> names)) = n :: names) as ->.
  { inversion Hnames as [|? ? Hn Hrest]; subst. rewrite fmap_cons.
    rewrite (proj1 (trim_plain n Hn)). f_equal.
    clear -Hrest. induction Hrest as [|x xs Hx _ IH]; [done|].
    rewrite !fmap_cons. by rewrite (proj2 (trim_plain x Hx)), IH. }
  clear -Hnames. induction Hnames as [|x xs Hx _ IH]; [done|].
  destruct (plainName_inv x Hx) as (c & rest & -> & Hc & Hplain).
  destruct (plainChar_spec c Hc) as (_ & _ & Hslash & _).
  cbn [List.filter]. change (truthy (String c rest)) with true.
  assert (startsWith (String c rest) "//" = false) as ->.
  { unfold startsWith. cbn [String.prefix].
    destruct (ascii_dec "/" c) as [<-|]; [by vm_compute in Hslash|done]. }
  cbn [andb negb]. rewrite fmap_cons.
  rewrite (removeBlockComments_plain _ Hplain), (proj1 (trim_plain _ Hx)).
  f_equal. exact IH.
Qed.

End ControllersFacts.

(** X20: a [@Module] decorator whose text starts with
    [{ controllers: [A, B, C]] is read back as the names [A], [B], [C] in
    that order (none for the empty array), whatever follows the array and
    whatever the names are, as long as each is not empty and has no comma,
    closing bracket, slash or white space in it. *)
Theorem extractControllers_reads_names (names : list string) (after : string)
    (others : list string) :
  Forall (λ n, plainName n = true) names →
  ModuleScanner.extractControllers
    {| dec_getName := "Module";
       dec_getArguments := ("{ controllers: [" +:+ commaSeparated names +:+ "]" +:+ after)
                             :: others |}
  = names.
Proof.
  intros Hnames. unfold ModuleScanner.extractControllers. cbn [dec_getArguments].
  assert (ModuleScanner.arrayMatch "controllers:"
            ("{ controllers: [" +:+ commaSeparated names +:+ "]" +:+ after)
          = Some (commaSeparated names)) as ->.
  { change ("{ controllers: [" +:+ commaSeparated names +:+ "]" +:+ after)
      with (String "{" (String " " ("controllers: [" +:+ commaSeparated names +:+ "]" +:+ after))).
    do 2 (cbn [ModuleScanner.arrayMatch];
          match goal with |- context [ModuleScanner.arrayAtFront ?k ?t] =>
            change (ModuleScanner.arrayAtFront k t) with (@None string)
          end; cbn iota).
    set (body := commaSeparated names +:+ "]" +:+ after).
    change ("controllers: [" +:+ body) with (String "c" ("ontrollers: [" +:+ body)).
    cbn [ModuleScanner.arrayMatch].
    change (ModuleScanner.arrayAtFront "controllers:" (String "c" ("ontrollers: [" +:+ body)))
      with (ModuleScanner.untilBracket body).
    subst body. change ("]" +:+ after) with (String "]" after).
    by rewrite untilBracket_commaSeparated. }
  by apply arrayEntries_commaSeparated.
Qed.

Lemma extractControllers_reads_names_witness :
  Forall (λ n, plainName n = true) ["MessagesController"; "ChatsController"] ∧
  ModuleScanner.extractControllers
    {| dec_getName := "Module";
       dec_getArguments :=
         ("{ controllers: [" +:+ commaSeparated ["MessagesController"; "ChatsController"]
          +:+ "]" +:+ ", providers: [] }") :: [] |}
  = ["MessagesController"; "ChatsController"].
Proof.
  assert (Forall (λ n, plainName n = true) ["MessagesController"; "ChatsController"]) as Hnames
    by (repeat constructor).
  split; [exact Hnames|].
  exact (extractControllers_reads_names _ ", providers: [] }" [] Hnames).
Defined.
